(** * telixCallHandler/calls.py: event filter and webhook relay

    A shallow embedding of [calls.py] and the properties of its handlers,
    its listener table and its delivery path.

    Conventions of the embedding.
    - A Python [str] is a [string]; an [ascii] stands for the code point of
      the same number, so the strings covered are those over U+0000..U+00FF.
    - Output ([print]) and the executor's task queue are fields of an
      explicit [world]; a Python call that may raise is a computation in the
      monad [M], which threads the world and an exception result.
    - The session library ([asterisk.ami]) and the HTTP library ([requests])
      are not part of the repository: the first is modelled after the
      specification's matcher and dispatch contract, the second is an
      oracle taken as a parameter. *)

From Stdlib Require Import String Ascii List Bool Arith ZArith Lia.
From Stdlib Require Import DecimalString.
From stdpp Require Import base option gmap strings.
Import ListNotations.

Local Open Scope string_scope.
Local Open Scope list_scope.

(** ** Python strings *)

Module PyStr.

Definition code (c : ascii) : nat := nat_of_ascii c.

Definition between (lo hi : nat) (c : ascii) : bool :=
  (lo <=? code c)%nat && (code c <=? hi)%nat.

(** [str.isspace] on one character, for code points below 256:
    U+0009..U+000D, U+001C..U+001F, U+0020, U+0085, U+00A0. *)
Definition isspace (c : ascii) : bool :=
  between 9 13 c || between 28 32 c || (code c =? 133)%nat || (code c =? 160)%nat.

(** Characters with a different lower-case form, for code points below
    256: A..Z, and U+00C0..U+00DE except the multiplication sign U+00D7. *)
Definition isupper (c : ascii) : bool :=
  between 65 90 c || (between 192 222 c && negb (code c =? 215)%nat).

Definition lower_char (c : ascii) : ascii :=
  if isupper c then ascii_of_nat (code c + 32) else c.

(** [s.lower()] *)
Fixpoint lower (s : string) : string :=
  match s with
  | EmptyString => EmptyString
  | String c s' => String (lower_char c) (lower s')
  end.

(** [s.split(sep, 1)] for a one-character separator: the text before the
    first [sep] and the text after it, or [s] alone when [sep] does not
    occur. *)
Fixpoint split_once (sep : ascii) (s : string) : list string :=
  match s with
  | EmptyString => [EmptyString]
  | String c s' =>
      if Ascii.eqb c sep then [EmptyString; s']
      else match split_once sep s' with
           | [] => []
           | hd :: tl => String c hd :: tl
           end
  end.

(** [s.rstrip()]: drop the trailing run of white space. *)
Fixpoint rstrip (s : string) : string :=
  match s with
  | EmptyString => EmptyString
  | String c s' =>
      match rstrip s' with
      | EmptyString => if isspace c then EmptyString else String c EmptyString
      | r => String c r
      end
  end.

(** [str(n)] for an [int]. *)
Definition str_of_int (z : Z) : string :=
  NilEmpty.string_of_int (Z.to_int z).

End PyStr.

(** ** Values, exceptions and the world *)

Inductive pyval :=
| VStr (s : string)
| VInt (z : Z).

Definition str (v : pyval) : string :=
  match v with
  | VStr s => s
  | VInt z => PyStr.str_of_int z
  end.

Inductive exn :=
| KeyError (key : string)
| IndexError
| TypeError (msg : string)
| Exception (msg : string).

(** [str(e)] *)
Definition exn_str (e : exn) : string :=
  match e with
  | KeyError key => "'" +:+ key +:+ "'"
  | IndexError => "list index out of range"
  | TypeError msg => msg
  | Exception msg => msg
  end.

Inductive result (A : Type) :=
| Ok (a : A)
| Raise (e : exn).
Arguments Ok {A} a.
Arguments Raise {A} e.

(** What the process has written to standard output, oldest line first; the
    tasks handed to [executor] and not yet run (each one a call
    [send_bg(string)]), oldest first; the HTTP POST attempts made so far, as
    (url, body), oldest first. *)
Record world := World {
  stdout : list string;
  submitted : list string;
  posts : list (string * string);
}.

Definition M (A : Type) : Type := world -> result A * world.

Definition ret {A} (a : A) : M A := fun w => (Ok a, w).

Definition raise {A} (e : exn) : M A := fun w => (Raise e, w).

Definition bind {A B} (m : M A) (k : A -> M B) : M B :=
  fun w =>
    match m w with
    | (Ok a, w') => k a w'
    | (Raise e, w') => (Raise e, w')
    end.

Declare Scope py_scope.
Delimit Scope py_scope with py.
Notation "x <- m ;; k" := (bind m (fun x => k))
  (at level 99, m at level 98, k at level 200, right associativity)
  : py_scope.
Local Open Scope py_scope.

Definition lift {A} (r : result A) : M A := fun w => (r, w).

(** [try: body  except Exception as e: handler(e)]. Every exception of this
    embedding is an [Exception] of Python, so the handler takes them all. *)
Definition try_except {A} (body : M A) (handler : exn -> M A) : M A :=
  fun w =>
    match body w with
    | (Ok a, w') => (Ok a, w')
    | (Raise e, w') => handler e w'
    end.

(** [print(s)] *)
Definition print (s : string) : M unit :=
  fun w => (Ok tt, {| stdout := stdout w ++ [s]; submitted := submitted w;
                      posts := posts w |}).

(** [executor.submit(send_bg, s)]: the task is queued, the caller goes on. *)
Definition executor_submit (s : string) : M unit :=
  fun w => (Ok tt, {| stdout := stdout w; submitted := submitted w ++ [s];
                      posts := posts w |}).

(** [l[i]] on a list. *)
Definition getitem_list {A} (l : list A) (i : nat) : result A :=
  match nth_error l i with
  | Some a => Ok a
  | None => Raise IndexError
  end.

(** [fmt % args] for the directives the program uses: [%s] takes the next
    argument and inserts [str] of it, [%%] is a percent sign. Too few or too
    many arguments raise [TypeError], as in Python. *)
Fixpoint format (fmt : string) (args : list pyval) : result string :=
  match fmt with
  | EmptyString =>
      match args with
      | [] => Ok EmptyString
      | _ :: _ => Raise (TypeError "not all arguments converted during string formatting")
      end
  | String "%" (String "s" rest) =>
      match args with
      | [] => Raise (TypeError "not enough arguments for format string")
      | v :: args' =>
          match format rest args' with
          | Ok r => Ok (str v +:+ r)
          | Raise e => Raise e
          end
      end
  | String "%" (String "%" rest) =>
      match format rest args with
      | Ok r => Ok (String "%" r)
      | Raise e => Raise e
      end
  | String "%" _ => Raise (TypeError "unsupported format character")
  | String c rest =>
      match format rest args with
      | Ok r => Ok (String c r)
      | Raise e => Raise e
      end
  end.

(** ** Events *)

(** An event of the session library: its name (the kind, such as
    [Newstate]) and its fields. *)
Record Event := {
  name : string;
  keys : gmap string string;
}.

(** [event[key]] *)
Definition getitem (event : Event) (key : string) : M string :=
  match keys event !! key with
  | Some v => ret v
  | None => raise (KeyError key)
  end.

(** ** The notification sender and the handlers *)

(** The string literals of the handlers hold double quotes. They are written
    here with an apostrophe where the source has a double quote, and [lit]
    puts the double quotes back; no literal of the source holds an
    apostrophe. *)
Definition dquote : ascii := "034"%char.

Fixpoint lit (s : string) : string :=
  match s with
  | EmptyString => EmptyString
  | String c s' => String (if Ascii.eqb c "'" then dquote else c) (lit s')
  end.

Definition send (s : string) : M unit :=
  _ <- print s ;;
  executor_submit s.

Definition incoming_template : string :=
  Eval cbv in lit "{'event': 'Incoming Call', 'remote': '%s', 'callid': '%s', 'dialed': '%s'}".

Definition hangup_template : string :=
  Eval cbv in lit "{'event': 'Hangup', 'callid': '%s', 'remote': '%s'}".

Definition accept_template : string :=
  Eval cbv in lit "{'event': 'Accepted Call', 'callid': '%s', 'remote': '%s', 'dialed': '%s'}".

Definition accept_user_template : string :=
  Eval cbv in lit "{'event': 'Accepted Call', 'callid': '%s', 'remote': '%s', 'dialed': '%s', 'user': '%s'}".

Definition outgoing_template : string :=
  Eval cbv in lit "{'event': 'Outgoing Call', 'callid': '%s', 'remote': '%s', 'user': '%s'}".

Definition transfer_template : string :=
  Eval cbv in lit "{'event': 'Transfer Call', 'callid': '%s', 'newuser': '%s'}".

(** [x.split(' ', 1)[0].lower()] *)
Definition first_word_lower (x : string) : M string :=
  w <- lift (getitem_list (PyStr.split_once " " x) 0) ;;
  ret (PyStr.lower w).

(** The handlers take [(source, event)]; [source], the client, is not used. *)
Definition on_incomming_call (event : Event) : M unit :=
  num <- getitem event "CallerIDNum" ;;
  uid <- getitem event "Uniqueid" ;;
  ext <- getitem event "Exten" ;;
  s <- lift (format incoming_template [VStr num; VStr uid; VStr ext]) ;;
  send s.

Definition on_hangup (event : Event) : M unit :=
  uid <- getitem event "Uniqueid" ;;
  num <- getitem event "CallerIDNum" ;;
  s <- lift (format hangup_template [VStr uid; VStr num]) ;;
  send s.

Definition on_accept (event : Event) : M unit :=
  line <- getitem event "ConnectedLineName" ;;
  if String.eqb line "<unknown>" then
    uid <- getitem event "Uniqueid" ;;
    num <- getitem event "CallerIDNum" ;;
    ext <- getitem event "Exten" ;;
    s <- lift (format accept_template [VStr uid; VStr num; VStr ext]) ;;
    send s
  else
    uid <- getitem event "Uniqueid" ;;
    num <- getitem event "CallerIDNum" ;;
    ext <- getitem event "Exten" ;;
    line' <- getitem event "ConnectedLineName" ;;
    user <- first_word_lower line' ;;
    s <- lift (format accept_user_template [VStr uid; VStr num; VStr ext; VStr user]) ;;
    send s.

Definition on_outgoing_call (event : Event) : M unit :=
  uid <- getitem event "Uniqueid" ;;
  ext <- getitem event "Exten" ;;
  cname <- getitem event "CallerIDName" ;;
  user <- first_word_lower cname ;;
  s <- lift (format outgoing_template [VStr uid; VStr ext; VStr user]) ;;
  send s.

Definition on_transfer (event : Event) : M unit :=
  uid <- getitem event "TransfereeUniqueid" ;;
  tname <- getitem event "TransferTargetCallerIDName" ;;
  newuser <- first_word_lower tname ;;
  s <- lift (format transfer_template [VStr uid; VStr newuser]) ;;
  send s.

(** ** Regular expressions

    The two patterns of the listener table use literals, [.], [*], [{5,}]
    and a leading [^]. [regex] is the abstract syntax of that fragment,
    [lang] its meaning as a set of strings, and [fullmatch], [match_prefix]
    and [search] the matcher, by derivatives. *)

Module Re.

Inductive regex :=
| Void
| Eps
| Dot
| Chr (c : ascii)
| Seq (r1 r2 : regex)
| Alt (r1 r2 : regex)
| Star (r : regex).

Definition newline : ascii := "010"%char.

(** Without the DOTALL flag, [.] is any character but a line feed. *)
Definition dot_char (c : ascii) : bool := negb (Ascii.eqb c newline).

Inductive lang : regex -> string -> Prop :=
| lang_eps : lang Eps EmptyString
| lang_dot c : dot_char c = true -> lang Dot (String c EmptyString)
| lang_chr c : lang (Chr c) (String c EmptyString)
| lang_seq r1 r2 s1 s2 : lang r1 s1 -> lang r2 s2 -> lang (Seq r1 r2) (s1 +:+ s2)
| lang_alt_l r1 r2 s : lang r1 s -> lang (Alt r1 r2) s
| lang_alt_r r1 r2 s : lang r2 s -> lang (Alt r1 r2) s
| lang_star_nil r : lang (Star r) EmptyString
| lang_star_app r s1 s2 :
    lang r s1 -> lang (Star r) s2 -> lang (Star r) (s1 +:+ s2).

Fixpoint nullable (r : regex) : bool :=
  match r with
  | Void | Dot | Chr _ => false
  | Eps | Star _ => true
  | Seq r1 r2 => nullable r1 && nullable r2
  | Alt r1 r2 => nullable r1 || nullable r2
  end.

Fixpoint deriv (a : ascii) (r : regex) : regex :=
  match r with
  | Void | Eps => Void
  | Dot => if dot_char a then Eps else Void
  | Chr c => if Ascii.eqb a c then Eps else Void
  | Seq r1 r2 =>
      if nullable r1 then Alt (Seq (deriv a r1) r2) (deriv a r2)
      else Seq (deriv a r1) r2
  | Alt r1 r2 => Alt (deriv a r1) (deriv a r2)
  | Star r1 => Seq (deriv a r1) (Star r1)
  end.

(** The whole of [s] is in the language of [r]. *)
Fixpoint fullmatch (r : regex) (s : string) : bool :=
  match s with
  | EmptyString => nullable r
  | String a s' => fullmatch (deriv a r) s'
  end.

(** Some prefix of [s] is in the language of [r]. *)
Fixpoint match_prefix (r : regex) (s : string) : bool :=
  nullable r ||
  match s with
  | EmptyString => false
  | String a s' => match_prefix (deriv a r) s'
  end.

(** Some substring of [s] is in the language of [r]. *)
Fixpoint search (r : regex) (s : string) : bool :=
  match_prefix r s ||
  match s with
  | EmptyString => false
  | String _ s' => search r s'
  end.

(** A literal text. *)
Fixpoint text (s : string) : regex :=
  match s with
  | EmptyString => Eps
  | String c s' => Seq (Chr c) (text s')
  end.

(** [r{n,}] *)
Fixpoint at_least (n : nat) (r : regex) : regex :=
  match n with
  | O => Star r
  | S n' => Seq r (at_least n' r)
  end.

(** A compiled pattern: [bol] says that it starts with [^], which (without
    the MULTILINE flag) holds at the start of the subject only. *)
Record pattern := {
  bol : bool;
  body : regex;
}.

(** The three ways of [re] to apply a pattern to a subject. *)
Inductive method := Search | Match | Fullmatch.

Definition test (how : method) (p : pattern) (s : string) : bool :=
  match how with
  | Search => if bol p then match_prefix (body p) s else search (body p) s
  | Match => match_prefix (body p) s
  | Fullmatch => fullmatch (body p) s
  end.

End Re.

(** ** Listeners and dispatch *)

(** A constraint on one field of an event: a string to equal, or a compiled
    pattern to satisfy. *)
Inductive attr_rule :=
| Exact (s : string)
| Pattern (p : Re.pattern).

(** [EventListener(on_event=..., white_list=..., **kwargs)]: the handler,
    the event name accepted, and the constraints on the fields. *)
Record EventListener := {
  on_event : Event -> M unit;
  white_list : string;
  assert_attrs : list (string * attr_rule);
}.

(** [re.compile('^SIP/Sipgate_-2615510.*')] *)
Definition sipgate_channel : Re.pattern :=
  {| Re.bol := true;
     Re.body := Re.Seq (Re.text "SIP/Sipgate_-2615510") (Re.Star Re.Dot) |}.

(** [re.compile('.{5,}')] *)
Definition five_or_more : Re.pattern :=
  {| Re.bol := false; Re.body := Re.at_least 5 Re.Dot |}.

Definition incoming_listener : EventListener :=
  {| on_event := on_incomming_call; white_list := "Newstate";
     assert_attrs := [("ChannelStateDesc", Exact "Ring");
                      ("Context", Exact "from-trunk");
                      ("Channel", Pattern sipgate_channel)] |}.

Definition outgoing_listener : EventListener :=
  {| on_event := on_outgoing_call; white_list := "Newstate";
     assert_attrs := [("ChannelStateDesc", Exact "Ring");
                      ("Context", Exact "from-internal");
                      ("Exten", Pattern five_or_more)] |}.

Definition hangup_listener : EventListener :=
  {| on_event := on_hangup; white_list := "Hangup";
     assert_attrs := [("Context", Exact "from-trunk")] |}.

Definition accept_listener : EventListener :=
  {| on_event := on_accept; white_list := "Newstate";
     assert_attrs := [("Context", Exact "from-trunk");
                      ("ChannelStateDesc", Exact "Up")] |}.

Definition transfer_listener : EventListener :=
  {| on_event := on_transfer; white_list := "AttendedTransfer";
     assert_attrs := [] |}.

(** The listeners in the order of the five [client.add_event_listener]
    calls. *)
Definition event_listeners : list EventListener :=
  [incoming_listener; outgoing_listener; hangup_listener; accept_listener;
   transfer_listener].

Section Dispatch.

(** The specification leaves open whether a pattern has to match the whole
    field or a part of it; [how] is the method the session library uses. *)
Variable how : Re.method.

(** Modelled from the spec: one field predicate of the Event Matcher, exact
    string equality (with case) or a match of the pattern. *)
Definition check_attribute (rule : attr_rule) (value : string) : bool :=
  match rule with
  | Exact s => String.eqb s value
  | Pattern p => Re.test how p value
  end.

(** Modelled from the spec: the Event Matcher of the session library
    ([asterisk.ami.EventListener], not in the repository). The event's
    kind has to equal the listener's, and every constraint has to hold of
    the field it names; a field that the event lacks fails its
    constraint. *)
Definition matches (event : Event) (rule : EventListener) : bool :=
  String.eqb (name event) (white_list rule) &&
  forallb (fun '(key, r) =>
             match keys event !! key with
             | Some value => check_attribute r value
             | None => false
             end)
          (assert_attrs rule).

(** Modelled from the spec: the Dispatch Loop of the session library
    ([asterisk.ami.AMIClient], not in the repository). The rules are tried
    in registration order and the handler of every rule that matches is
    called with the event; a handler's exception is not caught here. *)
Fixpoint dispatch_to (rules : list EventListener) (event : Event) : M unit :=
  match rules with
  | [] => ret tt
  | rule :: rules' =>
      _ <- (if matches event rule then on_event rule event else ret tt) ;;
      dispatch_to rules' event
  end.

Definition dispatch (event : Event) : M unit :=
  dispatch_to event_listeners event.

End Dispatch.

(** ** Delivery *)

(** What one call of [requests.post] comes to: a response, or an exception
    of the HTTP library with its description. *)
Inductive http_outcome :=
| Response (status_code : Z) (text : string)
| Failure (description : string).

Definition call_url : string := "http://localhost/cgi-bin/aid/call".

Section Delivery.

(** The network and the receiving server: the outcome of the [n]-th POST
    of the process, given its URL and body. *)
Variable network : nat -> string -> string -> http_outcome.

(** [requests.post(url, data)] *)
Definition requests_post (url data : string) : M (Z * string) :=
  fun w =>
    let w' := {| stdout := stdout w; submitted := submitted w;
                 posts := posts w ++ [(url, data)] |} in
    match network (length (posts w)) url data with
    | Response status_code text => (Ok (status_code, text), w')
    | Failure description => (Raise (Exception description), w')
    end.

Definition send_bg (s : string) : M unit :=
  try_except
    (response <- requests_post call_url s ;;
     line <- lift (format "%s: %s" [VInt (fst response);
                                    VStr (PyStr.rstrip (snd response))]) ;;
     print line)
    (fun e => print ("Unexpected error: " +:+ exn_str e)).

(** The single worker of [executor] takes the oldest task of the queue and
    runs it; whatever the task returns or raises stays in the task's
    future, which [send] drops. *)
Definition worker_step (w : world) : option world :=
  match submitted w with
  | [] => None
  | s :: queue =>
      Some (snd (send_bg s {| stdout := stdout w; submitted := queue;
                              posts := posts w |}))
  end.

Fixpoint worker_run (n : nat) (w : world) : world :=
  match n with
  | O => w
  | S n' =>
      match worker_step w with
      | None => w
      | Some w' => worker_run n' w'
      end
  end.

(** The worker runs until the queue of the moment is empty. *)
Definition worker_drain (w : world) : world :=
  worker_run (length (submitted w)) w.

End Delivery.

(** ** JSON objects of strings

    The receiving side of the payloads: [Json.decode] reads a JSON text that
    is an object whose member values are all strings, and returns the
    members in order; it returns [None] for any other text. Code points
    above U+00FF, which [\u] escapes can name, are outside the strings of
    this embedding and are refused. *)

Module Json.

Definition object : Type := list (string * string).

Definition ws (c : ascii) : bool :=
  Ascii.eqb c " " || Ascii.eqb c "009" || Ascii.eqb c "010" || Ascii.eqb c "013".

(** Characters that may not stand unescaped in a JSON string. *)
Definition control (c : ascii) : bool := (PyStr.code c <? 32)%nat.

Definition backslash : ascii := "092"%char.

Definition hexval (c : ascii) : option nat :=
  if PyStr.between 48 57 c then Some (PyStr.code c - 48)
  else if PyStr.between 65 70 c then Some (PyStr.code c - 55)
  else if PyStr.between 97 102 c then Some (PyStr.code c - 87)
  else None.

(** The character a two-character escape stands for. *)
Definition unescape (c : ascii) : option ascii :=
  if Ascii.eqb c dquote then Some dquote
  else if Ascii.eqb c backslash then Some backslash
  else if Ascii.eqb c "/" then Some "/"%char
  else if Ascii.eqb c "b" then Some "008"%char
  else if Ascii.eqb c "f" then Some "012"%char
  else if Ascii.eqb c "n" then Some "010"%char
  else if Ascii.eqb c "r" then Some "013"%char
  else if Ascii.eqb c "t" then Some "009"%char
  else None.

Inductive esc :=
| Plain
| Backslash
| Hex (digits : nat) (value : nat).

Inductive role :=
| InKey
| InValue (key : string).

Inductive state :=
| Start
| Open
| Str (r : role) (buf : string) (e : esc)
| Colon (key : string)
| Value (key : string)
| After
| Comma
| Done.

Definition snoc (buf : string) (c : ascii) : string :=
  buf +:+ String c EmptyString.

Definition close (r : role) (buf : string) (acc : object) : state * object :=
  match r with
  | InKey => (Colon buf, acc)
  | InValue key => (After, acc ++ [(key, buf)])
  end.

Definition step (st : state) (acc : object) (c : ascii) : option (state * object) :=
  match st with
  | Start =>
      if ws c then Some (Start, acc)
      else if Ascii.eqb c "{" then Some (Open, acc) else None
  | Open =>
      if ws c then Some (Open, acc)
      else if Ascii.eqb c dquote then Some (Str InKey EmptyString Plain, acc)
      else if Ascii.eqb c "}" then Some (Done, acc) else None
  | Comma =>
      if ws c then Some (Comma, acc)
      else if Ascii.eqb c dquote then Some (Str InKey EmptyString Plain, acc)
      else None
  | Colon key =>
      if ws c then Some (Colon key, acc)
      else if Ascii.eqb c ":" then Some (Value key, acc) else None
  | Value key =>
      if ws c then Some (Value key, acc)
      else if Ascii.eqb c dquote then Some (Str (InValue key) EmptyString Plain, acc)
      else None
  | After =>
      if ws c then Some (After, acc)
      else if Ascii.eqb c "," then Some (Comma, acc)
      else if Ascii.eqb c "}" then Some (Done, acc) else None
  | Done => if ws c then Some (Done, acc) else None
  | Str r buf Plain =>
      if Ascii.eqb c dquote then Some (close r buf acc)
      else if Ascii.eqb c backslash then Some (Str r buf Backslash, acc)
      else if control c then None
      else Some (Str r (snoc buf c) Plain, acc)
  | Str r buf Backslash =>
      match unescape c with
      | Some d => Some (Str r (snoc buf d) Plain, acc)
      | None => if Ascii.eqb c "u" then Some (Str r buf (Hex 4 0), acc) else None
      end
  | Str r buf (Hex digits value) =>
      match hexval c with
      | None => None
      | Some d =>
          let value' := 16 * value + d in
          match digits with
          | 0 => None
          | 1 => if (value' <? 256)%nat
                 then Some (Str r (snoc buf (ascii_of_nat value')) Plain, acc)
                 else None
          | S digits' => Some (Str r buf (Hex digits' value'), acc)
          end
      end
  end.

Fixpoint run (st : state) (acc : object) (s : string) : option object :=
  match s with
  | EmptyString => match st with Done => Some acc | _ => None end
  | String c s' =>
      match step st acc c with
      | Some (st', acc') => run st' acc' s'
      | None => None
      end
  end.

Definition decode (s : string) : option object := run Start [] s.

(** A string that stands for itself between double quotes: no double
    quote, no backslash, no control character. *)
Definition plain_char (c : ascii) : bool :=
  negb (Ascii.eqb c dquote) && negb (Ascii.eqb c backslash) && negb (control c).

Fixpoint plain (s : string) : bool :=
  match s with
  | EmptyString => true
  | String c s' => plain_char c && plain s'
  end.

(** The text of an object as the handlers lay it out: members separated by
    a comma and a space, a colon and a space after the key, keys and
    values between double quotes as they are. *)
Definition member_text (m : string * string) : string :=
  String dquote (fst m +:+ String dquote (": " +:+ String dquote (snd m +:+ String dquote EmptyString))).

Fixpoint members_text (o : object) : string :=
  match o with
  | [] => EmptyString
  | [m] => member_text m
  | m :: o' => member_text m +:+ ", " +:+ members_text o'
  end.

Definition object_text (o : object) : string :=
  "{" +:+ members_text o +:+ "}".

End Json.

(** ** Notions used to state the properties *)

(** The text before the first space of a string, the whole string when it
    holds no space. *)
Fixpoint before_space (s : string) : string :=
  match s with
  | EmptyString => EmptyString
  | String c s' => if Ascii.eqb c " " then EmptyString else String c (before_space s')
  end.

Fixpoint has_space (s : string) : bool :=
  match s with
  | EmptyString => false
  | String c s' => Ascii.eqb c " " || has_space s'
  end.

(** The world after [send(p)]: the payload printed and queued. *)
Definition sent (p : string) (w : world) : world :=
  {| stdout := stdout w ++ [p]; submitted := submitted w ++ [p];
     posts := posts w |}.

(** The answers of [matches] for the five listeners, in registration
    order. *)
Definition verdicts (how : Re.method) (event : Event) : list bool :=
  map (matches how event) event_listeners.

(** The fields a handler reads from the event, per listener. *)
Definition required_fields : list (EventListener * list string) :=
  [(incoming_listener, ["CallerIDNum"; "Uniqueid"; "Exten"]);
   (outgoing_listener, ["Uniqueid"; "Exten"; "CallerIDName"]);
   (hangup_listener, ["Uniqueid"; "CallerIDNum"]);
   (accept_listener, ["ConnectedLineName"; "Uniqueid"; "CallerIDNum"; "Exten"]);
   (transfer_listener, ["TransfereeUniqueid"; "TransferTargetCallerIDName"])].

(** A handler that reads [fields] from the event either finds one of them
    missing and raises [KeyError] for it, with nothing printed and nothing
    queued, or finds them all and sends one payload. *)
Definition one_shot (fields : list string) (handler : Event -> M unit) : Prop :=
  forall event w,
    (exists key, In key fields /\ keys event !! key = None /\
                 handler event w = (Raise (KeyError key), w)) \/
    (Forall (fun key => keys event !! key <> None) fields /\
     exists p, handler event w = (Ok tt, sent p w)).

(** What the specification says of a handler that finds a field missing:
    it returns without an exception, has queued nothing and has written one
    line to the log. *)
Definition absorbs_missing_field (handler : Event -> M unit)
    (event : Event) (w : world) : Prop :=
  exists line,
    handler event w =
      (Ok tt, {| stdout := stdout w ++ [line]; submitted := submitted w;
                 posts := posts w |}).

(** A [Newstate] event of an incoming call that carries no [CallerIDNum]. *)
Definition no_caller_id : Event :=
  {| name := "Newstate";
     keys := list_to_map [("ChannelStateDesc", "Ring"); ("Context", "from-trunk");
                          ("Channel", "SIP/Sipgate_-2615510-00a1");
                          ("Exten", "100"); ("Uniqueid", "1700000000.12")] |}.

Definition quiet : world := {| stdout := []; submitted := []; posts := [] |}.

(** Scenario 1 of the specification: an incoming call on the trunk. *)
Definition scenario1 : Event :=
  {| name := "Newstate";
     keys := list_to_map [("ChannelStateDesc", "Ring"); ("Context", "from-trunk");
                          ("Channel", "SIP/Sipgate_-2615510-00a1");
                          ("CallerIDNum", "+491701234567"); ("Exten", "100");
                          ("Uniqueid", "1700000000.12")] |}.

(** The payload that the specification gives for scenario 1. *)
Definition scenario1_payload : string :=
  Eval cbv in
    lit "{'event':'Incoming Call','remote':'+491701234567','callid':'1700000000.12','dialed':'100'}".

(** The same call with a double quote in the caller's number. *)
Definition quoted_caller : Event :=
  {| name := "Newstate";
     keys := list_to_map [("ChannelStateDesc", "Ring"); ("Context", "from-trunk");
                          ("Channel", "SIP/Sipgate_-2615510-00a1");
                          ("CallerIDNum", lit "+49170'1234567"); ("Exten", "100");
                          ("Uniqueid", "1700000000.12")] |}.

(** An accepted call whose connected line is unknown and whose caller's
    number closes the string and opens a member of its own. *)
Definition forged_user : Event :=
  {| name := "Newstate";
     keys := list_to_map [("ChannelStateDesc", "Up"); ("Context", "from-trunk");
                          ("CallerIDNum", lit "0', 'user': 'root"); ("Exten", "100");
                          ("Uniqueid", "1700000000.12");
                          ("ConnectedLineName", "<unknown>")] |}.

(** An accepted call answered by Jane Doe (scenario 3). *)
Definition accepted_by_jane : Event :=
  {| name := "Newstate";
     keys := list_to_map [("ChannelStateDesc", "Up"); ("Context", "from-trunk");
                          ("CallerIDNum", "+491701234567"); ("Exten", "100");
                          ("Uniqueid", "1700000000.12");
                          ("ConnectedLineName", "Jane Doe")] |}.

(** A transfer to Bob Smith Extra (scenario 5). *)
Definition transfer_to_bob : Event :=
  {| name := "AttendedTransfer";
     keys := list_to_map [("TransfereeUniqueid", "1700000000.12");
                          ("TransferTargetCallerIDName", "Bob Smith Extra")] |}.

Definition tab : ascii := "009"%char.

(** A name whose two words are separated by a tab. *)
Definition bob_tab_smith : string := "Bob" +:+ String tab "Smith".

(** The first word as the specification words it: the name is split at its
    first run of white space, the leading token is kept (the whole name when
    it holds no white space) and case-folded. *)
Fixpoint leading_token (s : string) : string :=
  match s with
  | EmptyString => EmptyString
  | String c s' => if PyStr.isspace c then EmptyString else String c (leading_token s')
  end.

Definition spec_first_word (name : string) : string :=
  PyStr.lower (leading_token name).

(** An accepted call whose connected line has the empty name. *)
Definition accepted_by_nobody : Event :=
  {| name := "Newstate";
     keys := list_to_map [("ChannelStateDesc", "Up"); ("Context", "from-trunk");
                          ("CallerIDNum", "+491701234567"); ("Exten", "100");
                          ("Uniqueid", "1700000000.12");
                          ("ConnectedLineName", "")] |}.

(** No character of the string is a line feed. *)
Fixpoint no_line_feed (s : string) : bool :=
  match s with
  | EmptyString => true
  | String c s' => Re.dot_char c && no_line_feed s'
  end.

(** A call from an internal extension that rings, with the number dialed. *)
Definition dialing (exten : string) : Event :=
  {| name := "Newstate";
     keys := list_to_map [("ChannelStateDesc", "Ring"); ("Context", "from-internal");
                          ("Exten", exten); ("Uniqueid", "1700000000.12");
                          ("CallerIDName", "Jane Doe")] |}.

(** Five characters, the third a line feed. *)
Definition five_with_line_feed : string := "12" +:+ String Re.newline "45".

(** The line that [send_bg] prints for an outcome: the status and the text
    of the response without its trailing white space, or the description of
    the exception. *)
Definition report (o : http_outcome) : string :=
  match o with
  | Response status_code text =>
      PyStr.str_of_int status_code +:+ ": " +:+ PyStr.rstrip text
  | Failure description => "Unexpected error: " +:+ description
  end.

(** The lines printed for the payloads of a queue, the first of them being
    the [n]-th POST of the process. *)
Fixpoint reports (network : nat -> string -> string -> http_outcome)
    (n : nat) (queue : list string) : list string :=
  match queue with
  | [] => []
  | s :: queue' => report (network n call_url s) :: reports network (S n) queue'
  end.

(** A network on which the second POST fails and the third is answered with
    an error status. *)
Definition flaky (n : nat) (url data : string) : http_outcome :=
  match n with
  | 0 => Response 200 ("OK" +:+ String Re.newline EmptyString)
  | 1 => Failure "connection refused"
  | _ => Response 500 "Internal Server Error"
  end.

(** [send] called on one payload after the other. *)
Fixpoint send_all (payloads : list string) : M unit :=
  match payloads with
  | [] => ret tt
  | p :: payloads' => _ <- send p ;; send_all payloads'
  end.

(** ** Notions used for the further properties *)

(** The first field of [fields], in that order, that the event lacks. *)
Fixpoint first_missing (event : Event) (fields : list string) : option string :=
  match fields with
  | [] => None
  | key :: fields' =>
      match keys event !! key with
      | None => Some key
      | Some _ => first_missing event fields'
      end
  end.

(** Some character of the string has a lower-case form of its own. *)
Fixpoint has_upper (s : string) : bool :=
  match s with
  | EmptyString => false
  | String c s' => PyStr.isupper c || has_upper s'
  end.

(** Every character of the string is white space. *)
Fixpoint all_space (s : string) : bool :=
  match s with
  | EmptyString => true
  | String c s' => PyStr.isspace c && all_space s'
  end.

(** The last character of the string is white space. *)
Fixpoint ends_in_space (s : string) : bool :=
  match s with
  | EmptyString => false
  | String c EmptyString => PyStr.isspace c
  | String _ s' => ends_in_space s'
  end.

(** The literal text at the head of the channel pattern. *)
Definition sipgate_prefix : string := "SIP/Sipgate_-2615510".

(** Scenario 2 of the specification: the hangup of the call of scenario 1. *)
Definition scenario2 : Event :=
  {| name := "Hangup";
     keys := list_to_map [("Context", "from-trunk"); ("Uniqueid", "1700000000.12");
                          ("CallerIDNum", "+491701234567")] |}.

(** A hangup on the trunk that carries neither [Uniqueid] nor
    [CallerIDNum]. *)
Definition bare_hangup : Event :=
  {| name := "Hangup"; keys := list_to_map [("Context", "from-trunk")] |}.

(** The event of scenario 1 with fields that no handler reads. *)
Definition scenario1_more : Event :=
  {| name := "Newstate";
     keys := list_to_map [("ChannelStateDesc", "Ring"); ("Context", "from-trunk");
                          ("Channel", "SIP/Sipgate_-2615510-00a1");
                          ("CallerIDNum", "+491701234567"); ("Exten", "100");
                          ("Uniqueid", "1700000000.12");
                          ("Privilege", "call,all"); ("Linkedid", "1700000000.12")] |}.

(** A variable being set on a channel: an event of a kind that no listener
    names. *)
Definition var_set : Event :=
  {| name := "VarSet";
     keys := list_to_map [("Context", "from-trunk"); ("Variable", "RTPAUDIOQOS");
                          ("Uniqueid", "1700000000.12")] |}.

(** The no-break space, which Python counts as white space. *)
Definition nbsp : ascii := "160"%char.

(** A name whose two words are separated by a no-break space. *)
Definition jane_nbsp_doe : string := "Jane" +:+ String nbsp "Doe".

(** Accepted calls: answered by that name, answered on an unknown line, and
    without the name of the connected line. *)
Definition accepted_by_jane_nbsp : Event :=
  {| name := "Newstate";
     keys := list_to_map [("ChannelStateDesc", "Up"); ("Context", "from-trunk");
                          ("CallerIDNum", "+491701234567"); ("Exten", "100");
                          ("Uniqueid", "1700000000.12");
                          ("ConnectedLineName", jane_nbsp_doe)] |}.

Definition accepted_by_unknown : Event :=
  {| name := "Newstate";
     keys := list_to_map [("ChannelStateDesc", "Up"); ("Context", "from-trunk");
                          ("CallerIDNum", "+491701234567"); ("Exten", "100");
                          ("Uniqueid", "1700000000.12");
                          ("ConnectedLineName", "<unknown>")] |}.

Definition accepted_nameless : Event :=
  {| name := "Newstate";
     keys := list_to_map [("ChannelStateDesc", "Up"); ("Context", "from-trunk");
                          ("CallerIDNum", "+491701234567"); ("Exten", "100");
                          ("Uniqueid", "1700000000.12")] |}.

(** * Properties *)

#[local] Arguments String.append !_ _ / : simpl nomatch.

(** ** Strings *)

Lemma sapp_assoc (a b c : string) : (a +:+ b) +:+ c = a +:+ (b +:+ c).
Proof. induction a as [|x a IH]; simpl; [reflexivity | now rewrite IH]. Qed.

Lemma sapp_nil_r (a : string) : a +:+ EmptyString = a.
Proof. induction a as [|x a IH]; simpl; [reflexivity | now rewrite IH]. Qed.

Lemma sapp_length (a b : string) :
  String.length (a +:+ b) = String.length a + String.length b.
Proof. induction a as [|x a IH]; simpl; [reflexivity | now rewrite IH]. Qed.

Lemma split_once_space (s : string) :
  exists rest, PyStr.split_once " " s = before_space s :: rest.
Proof.
  induction s as [|c s [rest IH]]; simpl.
  - now exists [].
  - destruct (Ascii.eqb c " ").
    + now exists [s].
    + rewrite IH. now exists rest.
Qed.

Lemma before_space_no_space (s : string) :
  has_space s = false -> before_space s = s.
Proof.
  induction s as [|c s IH]; simpl; [reflexivity |].
  destruct (Ascii.eqb c " "); simpl; [discriminate |].
  intros H. now rewrite IH.
Qed.

Lemma before_space_split (s : string) :
  has_space s = true ->
  exists rest, s = before_space s +:+ String " " rest /\
               has_space (before_space s) = false.
Proof.
  induction s as [|c s IH]; simpl; [discriminate |].
  destruct (Ascii.eqb_spec c " ") as [-> | Hc]; simpl.
  - intros _. now exists s.
  - intros H. destruct (IH H) as (rest & E & N). exists rest. split.
    + now rewrite <- E.
    + apply Ascii.eqb_neq in Hc. now rewrite Hc.
Qed.

Lemma first_word_lower_value (x : string) (w : world) :
  first_word_lower x w = (Ok (PyStr.lower (before_space x)), w).
Proof.
  unfold first_word_lower, bind, lift, ret, getitem_list.
  destruct (split_once_space x) as [rest ->]. reflexivity.
Qed.

(** ** What a handler does *)

Lemma send_sent (p : string) (w : world) : send p w = (Ok tt, sent p w).
Proof. reflexivity. Qed.

Ltac run_handler :=
  unfold getitem, bind, lift, ret, raise;
  repeat match goal with
         | H : keys _ !! _ = _ |- _ => rewrite H
         end;
  cbn -[first_word_lower send Json.object_text].

Ltac same_text :=
  unfold Json.object_text, Json.members_text, Json.member_text;
  cbn; repeat (rewrite sapp_assoc; cbn); reflexivity.

Section Handlers.

Variables (event : Event) (w : world).

Lemma on_incomming_call_sends num uid ext :
  keys event !! "CallerIDNum" = Some num ->
  keys event !! "Uniqueid" = Some uid ->
  keys event !! "Exten" = Some ext ->
  on_incomming_call event w =
    (Ok tt, sent (Json.object_text [("event", "Incoming Call"); ("remote", num);
                                    ("callid", uid); ("dialed", ext)]) w).
Proof.
  intros H1 H2 H3. unfold on_incomming_call. run_handler.
  rewrite send_sent. do 2 f_equal. same_text.
Qed.

Lemma on_hangup_sends uid num :
  keys event !! "Uniqueid" = Some uid ->
  keys event !! "CallerIDNum" = Some num ->
  on_hangup event w =
    (Ok tt, sent (Json.object_text [("event", "Hangup"); ("callid", uid);
                                    ("remote", num)]) w).
Proof.
  intros H1 H2. unfold on_hangup. run_handler.
  rewrite send_sent. do 2 f_equal. same_text.
Qed.

Lemma on_accept_unknown_sends uid num ext :
  keys event !! "ConnectedLineName" = Some "<unknown>" ->
  keys event !! "Uniqueid" = Some uid ->
  keys event !! "CallerIDNum" = Some num ->
  keys event !! "Exten" = Some ext ->
  on_accept event w =
    (Ok tt, sent (Json.object_text [("event", "Accepted Call"); ("callid", uid);
                                    ("remote", num); ("dialed", ext)]) w).
Proof.
  intros H0 H1 H2 H3. unfold on_accept. run_handler.
  rewrite send_sent. do 2 f_equal. same_text.
Qed.

Lemma on_accept_user_sends line uid num ext :
  line <> "<unknown>" ->
  keys event !! "ConnectedLineName" = Some line ->
  keys event !! "Uniqueid" = Some uid ->
  keys event !! "CallerIDNum" = Some num ->
  keys event !! "Exten" = Some ext ->
  on_accept event w =
    (Ok tt, sent (Json.object_text [("event", "Accepted Call"); ("callid", uid);
                                    ("remote", num); ("dialed", ext);
                                    ("user", PyStr.lower (before_space line))]) w).
Proof.
  intros Hne H0 H1 H2 H3. unfold on_accept. run_handler.
  apply String.eqb_neq in Hne. rewrite Hne. run_handler. unfold bind. rewrite first_word_lower_value.
  cbn -[send Json.object_text].
  rewrite send_sent. do 2 f_equal. same_text.
Qed.

Lemma on_outgoing_call_sends uid ext cname :
  keys event !! "Uniqueid" = Some uid ->
  keys event !! "Exten" = Some ext ->
  keys event !! "CallerIDName" = Some cname ->
  on_outgoing_call event w =
    (Ok tt, sent (Json.object_text [("event", "Outgoing Call"); ("callid", uid);
                                    ("remote", ext);
                                    ("user", PyStr.lower (before_space cname))]) w).
Proof.
  intros H1 H2 H3. unfold on_outgoing_call. run_handler.
  unfold bind. rewrite first_word_lower_value. cbn -[send Json.object_text].
  rewrite send_sent. do 2 f_equal. same_text.
Qed.

Lemma on_transfer_sends uid tname :
  keys event !! "TransfereeUniqueid" = Some uid ->
  keys event !! "TransferTargetCallerIDName" = Some tname ->
  on_transfer event w =
    (Ok tt, sent (Json.object_text [("event", "Transfer Call"); ("callid", uid);
                                    ("newuser", PyStr.lower (before_space tname))]) w).
Proof.
  intros H1 H2. unfold on_transfer. run_handler.
  unfold bind. rewrite first_word_lower_value. cbn -[send Json.object_text].
  rewrite send_sent. do 2 f_equal. same_text.
Qed.

End Handlers.

(** ** Which events a listener takes *)

Section Matching.

Variables (how : Re.method) (event : Event).

Lemma lookup_exact (key value : string) :
  match keys event !! key with
  | Some v => String.eqb value v
  | None => false
  end = true <-> keys event !! key = Some value.
Proof.
  destruct (keys event !! key) as [v|]; [| split; discriminate].
  rewrite String.eqb_eq. split; congruence.
Qed.

Lemma lookup_pattern (key : string) (p : Re.pattern) :
  match keys event !! key with
  | Some v => Re.test how p v
  | None => false
  end = true <->
  exists v, keys event !! key = Some v /\ Re.test how p v = true.
Proof.
  destruct (keys event !! key) as [v|].
  - split; [intros H; now exists v | intros (v' & E & H); congruence].
  - split; [discriminate | intros (v' & E & _); discriminate].
Qed.

Lemma matches_incoming :
  matches how event incoming_listener = true <->
  name event = "Newstate" /\
  keys event !! "ChannelStateDesc" = Some "Ring" /\
  keys event !! "Context" = Some "from-trunk" /\
  exists ch, keys event !! "Channel" = Some ch /\
             Re.test how sipgate_channel ch = true.
Proof.
  unfold matches; cbn [forallb assert_attrs white_list check_attribute incoming_listener outgoing_listener hangup_listener accept_listener transfer_listener]. rewrite !andb_true_iff, String.eqb_eq.
  rewrite !lookup_exact, lookup_pattern. tauto.
Qed.

Lemma matches_outgoing :
  matches how event outgoing_listener = true <->
  name event = "Newstate" /\
  keys event !! "ChannelStateDesc" = Some "Ring" /\
  keys event !! "Context" = Some "from-internal" /\
  exists ext, keys event !! "Exten" = Some ext /\
              Re.test how five_or_more ext = true.
Proof.
  unfold matches; cbn [forallb assert_attrs white_list check_attribute incoming_listener outgoing_listener hangup_listener accept_listener transfer_listener]. rewrite !andb_true_iff, String.eqb_eq.
  rewrite !lookup_exact, lookup_pattern. tauto.
Qed.

Lemma matches_hangup :
  matches how event hangup_listener = true <->
  name event = "Hangup" /\ keys event !! "Context" = Some "from-trunk".
Proof.
  unfold matches; cbn [forallb assert_attrs white_list check_attribute incoming_listener outgoing_listener hangup_listener accept_listener transfer_listener]. rewrite !andb_true_iff, String.eqb_eq.
  rewrite !lookup_exact. tauto.
Qed.

Lemma matches_accept :
  matches how event accept_listener = true <->
  name event = "Newstate" /\
  keys event !! "Context" = Some "from-trunk" /\
  keys event !! "ChannelStateDesc" = Some "Up".
Proof.
  unfold matches; cbn [forallb assert_attrs white_list check_attribute incoming_listener outgoing_listener hangup_listener accept_listener transfer_listener]. rewrite !andb_true_iff, String.eqb_eq.
  rewrite !lookup_exact. tauto.
Qed.

Lemma matches_transfer :
  matches how event transfer_listener = true <->
  name event = "AttendedTransfer".
Proof.
  unfold matches; cbn [forallb assert_attrs white_list check_attribute incoming_listener outgoing_listener hangup_listener accept_listener transfer_listener]. rewrite andb_true_r. apply String.eqb_eq.
Qed.

(** At most one of the five listeners takes the event. *)
Lemma verdicts_cases :
  let verdicts := verdicts how event in
  verdicts = [false; false; false; false; false] \/
  verdicts = [true; false; false; false; false] \/
  verdicts = [false; true; false; false; false] \/
  verdicts = [false; false; true; false; false] \/
  verdicts = [false; false; false; true; false] \/
  verdicts = [false; false; false; false; true].
Proof.
  unfold verdicts, event_listeners, map; cbv zeta.
  destruct (matches how event incoming_listener) eqn:E1;
    destruct (matches how event outgoing_listener) eqn:E2;
    destruct (matches how event hangup_listener) eqn:E3;
    destruct (matches how event accept_listener) eqn:E4;
    destruct (matches how event transfer_listener) eqn:E5;
    try tauto; exfalso;
    repeat match goal with
           | H : matches _ _ incoming_listener = true |- _ =>
               apply matches_incoming in H; destruct H as (? & ? & ? & ?)
           | H : matches _ _ outgoing_listener = true |- _ =>
               apply matches_outgoing in H; destruct H as (? & ? & ? & ?)
           | H : matches _ _ hangup_listener = true |- _ =>
               apply matches_hangup in H; destruct H as (? & ?)
           | H : matches _ _ accept_listener = true |- _ =>
               apply matches_accept in H; destruct H as (? & ? & ?)
           | H : matches _ _ transfer_listener = true |- _ =>
               apply matches_transfer in H
           end;
    congruence.
Qed.

End Matching.

(** ** Dispatch *)

Lemma bind_ret_tt (m : M unit) (w : world) :
  bind m (fun _ => ret tt) w = m w.
Proof. unfold bind, ret. destruct (m w) as [[[]|e] w']; reflexivity. Qed.

Lemma dispatch_cases (how : Re.method) (event : Event) (w : world) :
  (verdicts how event = [false; false; false; false; false] /\
   dispatch how event w = (Ok tt, w)) \/
  (verdicts how event = [true; false; false; false; false] /\
   dispatch how event w = on_incomming_call event w) \/
  (verdicts how event = [false; true; false; false; false] /\
   dispatch how event w = on_outgoing_call event w) \/
  (verdicts how event = [false; false; true; false; false] /\
   dispatch how event w = on_hangup event w) \/
  (verdicts how event = [false; false; false; true; false] /\
   dispatch how event w = on_accept event w) \/
  (verdicts how event = [false; false; false; false; true] /\
   dispatch how event w = on_transfer event w).
Proof.
  pose proof (verdicts_cases how event) as H; cbv zeta in H.
  unfold dispatch, dispatch_to, event_listeners.
  unfold verdicts, event_listeners, map in *.
  destruct H as [H|[H|[H|[H|[H|H]]]]]; injection H as -> -> -> -> ->;
    [ left | right; left | do 2 right; left | do 3 right; left
    | do 4 right; left | do 5 right ];
    (split; [reflexivity |]);
    cbn [on_event incoming_listener outgoing_listener hangup_listener
           accept_listener transfer_listener];
    unfold bind, ret; try reflexivity.
  all: match goal with
       | |- _ = ?run => destruct run as [[[]|e] w']
       end; reflexivity.
Qed.

(** ** Missing fields *)

Ltac probe event key :=
  let E := fresh "E" in
  destruct (keys event !! key) as [?|] eqn:E;
  [ | left; exists key; split; [simpl; tauto |]; split;
      [ exact E
      | unfold on_incomming_call, on_hangup, on_outgoing_call, on_transfer;
        run_handler; reflexivity ] ].

Lemma on_incomming_call_one_shot :
  one_shot ["CallerIDNum"; "Uniqueid"; "Exten"] on_incomming_call.
Proof.
  intros event w.
  probe event "CallerIDNum". probe event "Uniqueid". probe event "Exten".
  right. split; [repeat constructor; congruence |]. eexists. eapply on_incomming_call_sends; eassumption.
Qed.

Lemma on_hangup_one_shot : one_shot ["Uniqueid"; "CallerIDNum"] on_hangup.
Proof.
  intros event w.
  probe event "Uniqueid". probe event "CallerIDNum".
  right. split; [repeat constructor; congruence |]. eexists. eapply on_hangup_sends; eassumption.
Qed.

Lemma on_outgoing_call_one_shot :
  one_shot ["Uniqueid"; "Exten"; "CallerIDName"] on_outgoing_call.
Proof.
  intros event w.
  probe event "Uniqueid". probe event "Exten". probe event "CallerIDName".
  right. split; [repeat constructor; congruence |]. eexists. eapply on_outgoing_call_sends; eassumption.
Qed.

Lemma on_transfer_one_shot :
  one_shot ["TransfereeUniqueid"; "TransferTargetCallerIDName"] on_transfer.
Proof.
  intros event w.
  probe event "TransfereeUniqueid". probe event "TransferTargetCallerIDName".
  right. split; [repeat constructor; congruence |]. eexists. eapply on_transfer_sends; eassumption.
Qed.

Lemma on_accept_one_shot :
  one_shot ["ConnectedLineName"; "Uniqueid"; "CallerIDNum"; "Exten"] on_accept.
Proof.
  intros event w.
  destruct (keys event !! "ConnectedLineName") as [line|] eqn:E0;
    [| left; exists "ConnectedLineName"; split; [simpl; tauto |]; split; [exact E0 | unfold on_accept; run_handler; reflexivity]].
  destruct (String.eqb_spec line "<unknown>") as [-> | Hne].
  - destruct (keys event !! "Uniqueid") as [uid|] eqn:E1;
      [| left; exists "Uniqueid"; split; [simpl; tauto |]; split; [exact E1 | unfold on_accept; run_handler; reflexivity]].
    destruct (keys event !! "CallerIDNum") as [num|] eqn:E2;
      [| left; exists "CallerIDNum"; split; [simpl; tauto |]; split; [exact E2 | unfold on_accept; run_handler; reflexivity]].
    destruct (keys event !! "Exten") as [ext|] eqn:E3;
      [| left; exists "Exten"; split; [simpl; tauto |]; split; [exact E3 | unfold on_accept; run_handler; reflexivity]].
    right. split; [repeat constructor; congruence |]. eexists. eapply on_accept_unknown_sends; eassumption.
  - assert (Hb : String.eqb line "<unknown>" = false)
      by now apply String.eqb_neq.
    destruct (keys event !! "Uniqueid") as [uid|] eqn:E1;
      [| left; exists "Uniqueid"; split; [simpl; tauto |]; split; [exact E1 | unfold on_accept; run_handler; rewrite Hb; run_handler; reflexivity]].
    destruct (keys event !! "CallerIDNum") as [num|] eqn:E2;
      [| left; exists "CallerIDNum"; split; [simpl; tauto |]; split; [exact E2 | unfold on_accept; run_handler; rewrite Hb; run_handler; reflexivity]].
    destruct (keys event !! "Exten") as [ext|] eqn:E3;
      [| left; exists "Exten"; split; [simpl; tauto |]; split; [exact E3 | unfold on_accept; run_handler; rewrite Hb; run_handler; reflexivity]].
    right. split; [repeat constructor; congruence |]. eexists. eapply on_accept_user_sends; eassumption.
Qed.

Lemma listeners_one_shot (rule : EventListener) (fields : list string) :
  In (rule, fields) required_fields -> one_shot fields (on_event rule).
Proof.
  unfold required_fields.
  intros [E|[E|[E|[E|[E|[]]]]]]; injection E as <- <-;
    cbn [on_event incoming_listener outgoing_listener hangup_listener
           accept_listener transfer_listener].
  - apply on_incomming_call_one_shot.
  - apply on_outgoing_call_one_shot.
  - apply on_hangup_one_shot.
  - apply on_accept_one_shot.
  - apply on_transfer_one_shot.
Qed.

(** C1, as the specification states it, fails: for an incoming call without
    [CallerIDNum], which the incoming-call listener takes, the handler does
    not return with the error logged; it raises [KeyError]. *)
Lemma missing_caller_id_not_absorbed :
  matches Re.Search no_caller_id incoming_listener = true /\
  keys no_caller_id !! "CallerIDNum" = None /\
  on_incomming_call no_caller_id quiet = (Raise (KeyError "CallerIDNum"), quiet) /\
  ~ absorbs_missing_field on_incomming_call no_caller_id quiet.
Proof.
  assert (E : on_incomming_call no_caller_id quiet =
              (Raise (KeyError "CallerIDNum"), quiet)) by (vm_compute; reflexivity).
  repeat split; try (vm_compute; reflexivity); try exact E.
  intros [line H]. rewrite E in H. discriminate.
Qed.

(** C7: whatever the event, at most one of the five listeners takes it, and
    dispatching it queues no payload or one. *)
Theorem at_most_one_notification (how : Re.method) (event : Event) (w : world) :
  length (List.filter (matches how event) event_listeners) <= 1 /\
  exists now, submitted (snd (dispatch how event w)) = submitted w ++ now /\
              length now <= 1.
Proof.
  split.
  - pose proof (verdicts_cases how event) as H; cbv zeta in H.
    unfold verdicts, event_listeners, map in H. unfold event_listeners, List.filter.
    destruct H as [H|[H|[H|[H|[H|H]]]]]; injection H as -> -> -> -> ->;
      simpl; lia.
  - assert (Hh : forall fields handler, one_shot fields handler ->
                 exists now, submitted (snd (handler event w)) = submitted w ++ now /\
                             length now <= 1).
    { intros fields handler Hone.
      destruct (Hone event w) as [(key & _ & _ & ->) | (_ & p & ->)].
      - exists []. simpl. rewrite app_nil_r. split; [reflexivity | lia].
      - exists [p]. simpl. split; [reflexivity | lia]. }
    destruct (dispatch_cases how event w)
      as [[_ ->]|[[_ ->]|[[_ ->]|[[_ ->]|[[_ ->]|[_ ->]]]]]].
    + exists []. simpl. rewrite app_nil_r. split; [reflexivity | lia].
    + eapply Hh, on_incomming_call_one_shot.
    + eapply Hh, on_outgoing_call_one_shot.
    + eapply Hh, on_hangup_one_shot.
    + eapply Hh, on_accept_one_shot.
    + eapply Hh, on_transfer_one_shot.
Qed.

(** ** Reading back the text of an object *)

Module JsonFacts.
Import Json.

Lemma plain_cons (c : ascii) (s : string) :
  plain (String c s) = true ->
  Ascii.eqb c dquote = false /\ Ascii.eqb c backslash = false /\
  control c = false /\ plain s = true.
Proof.
  simpl. unfold plain_char. rewrite !andb_true_iff, !negb_true_iff. tauto.
Qed.

(** Inside a string, plain text up to the closing quote goes to the
    buffer as it is. *)
Lemma run_plain (v : string) :
  plain v = true ->
  forall r buf acc rest,
    run (Str r buf Plain) acc (v +:+ String dquote rest) =
    run (fst (close r (buf +:+ v) acc)) (snd (close r (buf +:+ v) acc)) rest.
Proof.
  induction v as [|c v IH]; intros Hv r buf acc rest.
  - rewrite sapp_nil_r. simpl. now destruct (close r buf acc).
  - apply plain_cons in Hv as (Hq & Hb & Hc & Hv).
    change (String c v +:+ String dquote rest)
      with (String c (v +:+ String dquote rest)).
    cbn [run step]. rewrite Hq, Hb, Hc. rewrite (IH Hv).
    unfold snoc. now rewrite sapp_assoc.
Qed.

Lemma run_member (key value : string) :
  plain key = true -> plain value = true ->
  forall acc rest,
    run (Str InKey EmptyString Plain) acc
        (key +:+ String dquote (": " +:+ String dquote (value +:+ String dquote rest))) =
    run After (acc ++ [(key, value)]) rest.
Proof.
  intros Hk Hv acc rest.
  rewrite (run_plain key Hk). cbn -[run_plain].
  now rewrite (run_plain value Hv).
Qed.

Lemma member_text_app (key value rest : string) :
  member_text (key, value) +:+ rest =
  String dquote (key +:+ String dquote
                   (": " +:+ String dquote (value +:+ String dquote rest))).
Proof.
  unfold member_text. cbn [fst snd String.append].
  rewrite sapp_assoc. cbn [String.append]. now rewrite sapp_assoc.
Qed.

Lemma run_members (o : object) :
  o <> [] ->
  Forall (fun m => plain (fst m) = true /\ plain (snd m) = true) o ->
  forall st acc,
    st = Open \/ st = Comma ->
    run st acc (members_text o +:+ "}") = Some (acc ++ o).
Proof.
  induction o as [|[key value] o IH]; [congruence |].
  intros _ Hall st acc Hst.
  inversion Hall as [|? ? [Hk Hv] Hall']; subst. simpl in Hk, Hv.
  assert (Hq : forall rest' acc',
             run st acc' (String dquote rest') =
             run (Str InKey EmptyString Plain) acc' rest')
    by (intros; destruct Hst as [-> | ->]; reflexivity).
  destruct o as [|m o].
  - cbn [members_text].
    rewrite member_text_app, Hq, (run_member key value Hk Hv). reflexivity.
  - change (members_text ((key, value) :: m :: o))
      with (member_text (key, value) +:+ ", " +:+ members_text (m :: o)).
    rewrite sapp_assoc, member_text_app, Hq, (run_member key value Hk Hv).
    rewrite sapp_assoc.
    change (", " +:+ ?x) with (String "," (String " " x)).
    change (run After ?a (String "," (String " " ?x))) with (run Comma a x).
    rewrite (IH ltac:(discriminate) Hall' Comma _ (or_intror eq_refl)).
    now rewrite <- app_assoc.
Qed.

(** Decoding the text of an object gives the object back, when every key
    and value is plain. *)
Lemma decode_object_text (o : object) :
  Forall (fun m => plain (fst m) = true /\ plain (snd m) = true) o ->
  decode (object_text o) = Some o.
Proof.
  intros Hall. unfold decode, object_text.
  change (run Start [] ("{" +:+ ?x)) with (run Open [] x).
  destruct o as [|m o]; [reflexivity |].
  rewrite (run_members (m :: o) ltac:(discriminate) Hall Open [] (or_introl eq_refl)).
  reflexivity.
Qed.

End JsonFacts.

(** ** Payloads *)

Lemma lower_char_plain (c : ascii) :
  Json.plain_char c = true -> Json.plain_char (PyStr.lower_char c) = true.
Proof.
  destruct c as [[] [] [] [] [] [] [] []]; vm_compute; intros H;
    try reflexivity; discriminate H.
Qed.

Lemma first_word_plain (s : string) :
  Json.plain s = true -> Json.plain (PyStr.lower (before_space s)) = true.
Proof.
  induction s as [|c s IH]; [reflexivity |].
  intros H. apply andb_true_iff in H as [Hc Hs]. cbn [before_space].
  destruct (Ascii.eqb c " "); [reflexivity |].
  cbn [PyStr.lower Json.plain]. now rewrite lower_char_plain, IH.
Qed.

(** C3: the event of scenario 1 is taken by the incoming-call listener and
    by no other, and the payload sent for it is the JSON object that the
    specification gives, member for member. The text sent has a blank after
    each colon and comma, which the text of the specification has not. *)
Theorem scenario1_incoming_call (how : Re.method) (w : world) :
  let p := lit "{'event': 'Incoming Call', 'remote': '+491701234567', 'callid': '1700000000.12', 'dialed': '100'}" in
  verdicts how scenario1 = [true; false; false; false; false] /\
  dispatch how scenario1 w = (Ok tt, sent p w) /\
  on_incomming_call scenario1 w = (Ok tt, sent p w) /\
  Json.decode p = Some [("event", "Incoming Call"); ("remote", "+491701234567");
                        ("callid", "1700000000.12"); ("dialed", "100")] /\
  Json.decode p = Json.decode scenario1_payload.
Proof.
  intros p.
  assert (Hv : verdicts how scenario1 = [true; false; false; false; false])
    by (destruct how; vm_compute; reflexivity).
  assert (Hrun : on_incomming_call scenario1 w = (Ok tt, sent p w)).
  { now rewrite (on_incomming_call_sends scenario1 w "+491701234567"
                   "1700000000.12" "100"). }
  split; [exact Hv |]. split; [| split; [exact Hrun |]].
  - destruct (dispatch_cases how scenario1 w)
      as [[E _]|[[_ ->]|[[E _]|[[E _]|[[E _]|[E _]]]]]];
      try (rewrite Hv in E; discriminate E).
    exact Hrun.
  - split; vm_compute; reflexivity.
Qed.

(** Scenario 2 of the specification: the hangup of that call. *)
Example scenario2_hangup (how : Re.method) (w : world) :
  let hangup := {| name := "Hangup";
                   keys := list_to_map [("Context", "from-trunk");
                                        ("Uniqueid", "1700000000.12");
                                        ("CallerIDNum", "+491701234567")] |} in
  verdicts how hangup = [false; false; true; false; false] /\
  exists p, on_hangup hangup w = (Ok tt, sent p w) /\
            Json.decode p =
              Json.decode (lit "{'event':'Hangup','callid':'1700000000.12','remote':'+491701234567'}").
Proof.
  intros hangup. split; [destruct how; vm_compute; reflexivity |].
  eexists. split.
  - apply on_hangup_sends; vm_compute; reflexivity.
  - vm_compute. reflexivity.
Qed.

Ltac only_listener H :=
  match goal with
  | |- dispatch ?how ?event ?w = _ =>
      destruct (dispatch_cases how event w)
        as [[E _]|[[E D]|[[E D]|[[E D]|[[E D]|[E D]]]]]];
      unfold verdicts, event_listeners, map in E;
      injection E as E1 E2 E3 E4 E5;
      first [exact D | congruence]
  end.

Lemma dispatch_incoming how event w :
  matches how event incoming_listener = true ->
  dispatch how event w = on_incomming_call event w.
Proof. intros H. only_listener H. Qed.

Lemma dispatch_outgoing how event w :
  matches how event outgoing_listener = true ->
  dispatch how event w = on_outgoing_call event w.
Proof. intros H. only_listener H. Qed.

Lemma dispatch_hangup how event w :
  matches how event hangup_listener = true ->
  dispatch how event w = on_hangup event w.
Proof. intros H. only_listener H. Qed.

Lemma dispatch_accept how event w :
  matches how event accept_listener = true ->
  dispatch how event w = on_accept event w.
Proof. intros H. only_listener H. Qed.

Lemma dispatch_transfer how event w :
  matches how event transfer_listener = true ->
  dispatch how event w = on_transfer event w.
Proof. intros H. only_listener H. Qed.

(** C5, as the specification states it, fails in three ways. An accepted
    call whose [ConnectedLineName] is [<unknown>] and whose [CallerIDNum]
    holds double quotes gives a payload that a JSON reader takes to have a
    [user] member. A [ConnectedLineName] whose words are separated by white
    space other than a space (here U+00A0) gives as [user] the whole name
    in lower case, not its first word. An event that the listener takes but
    that has no [ConnectedLineName] gives no payload at all. *)
Lemma accepted_call_claim_fails :
  (matches Re.Search forged_user accept_listener = true /\
   keys forged_user !! "ConnectedLineName" = Some "<unknown>" /\
   exists p,
     on_accept forged_user quiet = (Ok tt, sent p quiet) /\
     Json.decode p = Some [("event", "Accepted Call"); ("callid", "1700000000.12");
                           ("remote", "0"); ("user", "root"); ("dialed", "100")]) /\
  (matches Re.Search accepted_by_jane_nbsp accept_listener = true /\
   keys accepted_by_jane_nbsp !! "ConnectedLineName" = Some jane_nbsp_doe /\
   spec_first_word jane_nbsp_doe = "jane" /\
   exists p,
     on_accept accepted_by_jane_nbsp quiet = (Ok tt, sent p quiet) /\
     Json.decode p = Some [("event", "Accepted Call"); ("callid", "1700000000.12");
                           ("remote", "+491701234567"); ("dialed", "100");
                           ("user", "jane" +:+ String nbsp "doe")]) /\
  (matches Re.Search accepted_nameless accept_listener = true /\
   keys accepted_nameless !! "ConnectedLineName" = None /\
   on_accept accepted_nameless quiet =
     (Raise (KeyError "ConnectedLineName"), quiet)).
Proof.
  repeat split; try (vm_compute; reflexivity);
    eexists; split; vm_compute; reflexivity.
Qed.

(** C5, as amended: for an event that the accepted-call listener takes and
    that carries [Uniqueid], [CallerIDNum], [Exten] and [ConnectedLineName],
    none of them with a double quote, a backslash or a control character,
    the payload is the JSON object with the members [event], [callid],
    [remote] and [dialed] and nothing else when [ConnectedLineName] is
    [<unknown>], and with the member [user] after them otherwise, set to the
    text before the first space of [ConnectedLineName] in lower case. *)
Theorem accepted_call_user_field
    (how : Re.method) (event : Event) (w : world) (uid num ext line : string) :
  matches how event accept_listener = true ->
  keys event !! "Uniqueid" = Some uid ->
  keys event !! "CallerIDNum" = Some num ->
  keys event !! "Exten" = Some ext ->
  keys event !! "ConnectedLineName" = Some line ->
  Json.plain uid = true -> Json.plain num = true -> Json.plain ext = true ->
  Json.plain line = true ->
  let base := [("event", "Accepted Call"); ("callid", uid); ("remote", num);
               ("dialed", ext)] in
  let fields := if String.eqb line "<unknown>" then base
                else base ++ [("user", PyStr.lower (before_space line))] in
  exists p,
    dispatch how event w = (Ok tt, sent p w) /\
    on_accept event w = (Ok tt, sent p w) /\
    Json.decode p = Some fields.
Proof.
  intros Hm Huid Hnum Hext Hline Pu Pn Pe Pl base fields.
  exists (Json.object_text fields).
  assert (Hrun : on_accept event w = (Ok tt, sent (Json.object_text fields) w)).
  { subst fields base. destruct (String.eqb_spec line "<unknown>") as [-> | Hne].
    - now apply on_accept_unknown_sends.
    - now apply on_accept_user_sends. }
  split; [| split].
  - now rewrite dispatch_accept.
  - exact Hrun.
  - apply JsonFacts.decode_object_text.
    subst fields base. destruct (String.eqb line "<unknown>");
      repeat constructor; simpl; auto using first_word_plain.
Qed.

Lemma accepted_call_user_field_witness :
  (exists p,
      dispatch Re.Search accepted_by_jane quiet = (Ok tt, sent p quiet) /\
      on_accept accepted_by_jane quiet = (Ok tt, sent p quiet) /\
      Json.decode p = Some [("event", "Accepted Call"); ("callid", "1700000000.12");
                            ("remote", "+491701234567"); ("dialed", "100");
                            ("user", "jane")]) /\
  (exists p,
      dispatch Re.Search accepted_by_unknown quiet = (Ok tt, sent p quiet) /\
      on_accept accepted_by_unknown quiet = (Ok tt, sent p quiet) /\
      Json.decode p = Some [("event", "Accepted Call"); ("callid", "1700000000.12");
                            ("remote", "+491701234567"); ("dialed", "100")]).
Proof.
  split.
  - apply (accepted_call_user_field Re.Search accepted_by_jane quiet
             "1700000000.12" "+491701234567" "100" "Jane Doe");
      vm_compute; reflexivity.
  - apply (accepted_call_user_field Re.Search accepted_by_unknown quiet
             "1700000000.12" "+491701234567" "100" "<unknown>");
      vm_compute; reflexivity.
Defined.

(** C10: the sentinel is compared as a whole and with its case. For an
    event that the accepted-call listener takes and whose
    [ConnectedLineName] is anything else, the payload has the member [user];
    the empty string, [unknown] and [<Unknown>] are such values, and the
    empty string gives the empty [user]. *)
Theorem sentinel_compared_exactly
    (how : Re.method) (event : Event) (w : world) (uid num ext line : string) :
  matches how event accept_listener = true ->
  keys event !! "Uniqueid" = Some uid ->
  keys event !! "CallerIDNum" = Some num ->
  keys event !! "Exten" = Some ext ->
  keys event !! "ConnectedLineName" = Some line ->
  line <> "<unknown>" ->
  exists user,
    dispatch how event w =
      (Ok tt, sent (Json.object_text [("event", "Accepted Call"); ("callid", uid);
                                      ("remote", num); ("dialed", ext);
                                      ("user", user)]) w) /\
    user = PyStr.lower (before_space line) /\
    (line = "" -> user = "") /\
    (line = "unknown" -> user = "unknown") /\
    (line = "<Unknown>" -> user = "<unknown>").
Proof.
  intros Hm Huid Hnum Hext Hline Hne.
  exists (PyStr.lower (before_space line)). split; [| split; [reflexivity |]].
  - rewrite (dispatch_accept how event w Hm). now apply on_accept_user_sends.
  - repeat split; intros ->; reflexivity.
Qed.

Lemma sentinel_compared_exactly_witness :
  exists user,
    dispatch Re.Search accepted_by_nobody quiet =
      (Ok tt, sent (Json.object_text [("event", "Accepted Call");
                                      ("callid", "1700000000.12");
                                      ("remote", "+491701234567"); ("dialed", "100");
                                      ("user", user)]) quiet) /\
    user = PyStr.lower (before_space "") /\
    ("" = "" -> user = "") /\
    ("" = "unknown" -> user = "unknown") /\
    ("" = "<Unknown>" -> user = "<unknown>").
Proof.
  apply (sentinel_compared_exactly Re.Search accepted_by_nobody quiet
           "1700000000.12" "+491701234567" "100" "");
    try (vm_compute; reflexivity).
  discriminate.
Defined.

(** C2 does not hold of the code: the field values are put between the
    double quotes of the template as they are. With a double quote in
    [CallerIDNum] the text sent for an incoming call is not a JSON object;
    with a value that closes its string and opens a member, the text sent
    for an accepted call with an unknown connected line is an object with a
    [user] member that the handler table does not give it. *)
Theorem quote_in_field_breaks_payload (how : Re.method) :
  matches how quoted_caller incoming_listener = true /\
  on_incomming_call quoted_caller quiet =
    (Ok tt, sent (lit "{'event': 'Incoming Call', 'remote': '+49170'1234567', 'callid': '1700000000.12', 'dialed': '100'}") quiet) /\
  Json.decode (lit "{'event': 'Incoming Call', 'remote': '+49170'1234567', 'callid': '1700000000.12', 'dialed': '100'}") = None /\
  matches how forged_user accept_listener = true /\
  exists p,
    on_accept forged_user quiet = (Ok tt, sent p quiet) /\
    Json.decode p = Some [("event", "Accepted Call"); ("callid", "1700000000.12");
                          ("remote", "0"); ("user", "root"); ("dialed", "100")].
Proof.
  destruct how; repeat split; try (vm_compute; reflexivity);
    eexists; split; vm_compute; reflexivity.
Qed.

(** C4, as the specification states it, fails: a tab does not end the first
    word. For the name [Bob<TAB>Smith] the handlers give the whole name in
    lower case, where splitting at white space gives [bob]. *)
Lemma tab_does_not_end_first_word :
  first_word_lower bob_tab_smith quiet =
    (Ok ("bob" +:+ String tab "smith"), quiet) /\
  spec_first_word bob_tab_smith = "bob" /\
  first_word_lower bob_tab_smith quiet <> (Ok (spec_first_word bob_tab_smith), quiet).
Proof.
  repeat split; try (vm_compute; reflexivity).
  vm_compute. discriminate.
Qed.

(** C4, as amended: the [user] or [newuser] value of a name is the text
    before the first space (U+0020) of the name, in lower case; no other
    white space ends it. When the name holds no space, and so when it is
    empty, the whole name is taken; when it holds one, the name is that
    text, the space and a rest. This is the value in the payloads of the
    transfer, outgoing-call and accepted-call handlers. *)
Theorem first_word_is_text_before_first_space (name : string) (w : world) :
  first_word_lower name w = (Ok (PyStr.lower (before_space name)), w) /\
  (has_space name = false -> before_space name = name) /\
  (has_space name = true ->
   exists rest, name = before_space name +:+ String " " rest /\
                has_space (before_space name) = false) /\
  forall event uid,
    (keys event !! "TransfereeUniqueid" = Some uid ->
     keys event !! "TransferTargetCallerIDName" = Some name ->
     on_transfer event w =
       (Ok tt, sent (Json.object_text
                       [("event", "Transfer Call"); ("callid", uid);
                        ("newuser", PyStr.lower (before_space name))]) w)) /\
    (forall ext,
        keys event !! "Uniqueid" = Some uid ->
        keys event !! "Exten" = Some ext ->
        keys event !! "CallerIDName" = Some name ->
        on_outgoing_call event w =
          (Ok tt, sent (Json.object_text
                          [("event", "Outgoing Call"); ("callid", uid);
                           ("remote", ext);
                           ("user", PyStr.lower (before_space name))]) w)) /\
    (forall num ext,
        name <> "<unknown>" ->
        keys event !! "ConnectedLineName" = Some name ->
        keys event !! "Uniqueid" = Some uid ->
        keys event !! "CallerIDNum" = Some num ->
        keys event !! "Exten" = Some ext ->
        on_accept event w =
          (Ok tt, sent (Json.object_text
                          [("event", "Accepted Call"); ("callid", uid);
                           ("remote", num); ("dialed", ext);
                           ("user", PyStr.lower (before_space name))]) w)).
Proof.
  split; [apply first_word_lower_value |].
  split; [apply before_space_no_space |].
  split; [apply before_space_split |].
  intros event uid. split; [| split].
  - apply on_transfer_sends.
  - intros ext. apply on_outgoing_call_sends.
  - intros num ext. apply on_accept_user_sends.
Qed.

Lemma first_word_is_text_before_first_space_witness :
  first_word_lower "Bob Smith Extra" quiet = (Ok "bob", quiet) /\
  (exists rest, "Bob Smith Extra" = "Bob" +:+ String " " rest) /\
  on_transfer transfer_to_bob quiet =
    (Ok tt, sent (Json.object_text [("event", "Transfer Call");
                                    ("callid", "1700000000.12");
                                    ("newuser", "bob")]) quiet).
Proof.
  destruct (first_word_is_text_before_first_space "Bob Smith Extra" quiet)
    as (Hword & _ & Hsplit & Hpay).
  split; [exact Hword |]. split.
  - destruct (Hsplit eq_refl) as (rest & E & _). exists rest. exact E.
  - apply (Hpay transfer_to_bob "1700000000.12"); vm_compute; reflexivity.
Defined.

(** ** The matcher and the language of a pattern *)

Module ReFacts.
Import Re.

Lemma sapp_eq_nil (s1 s2 : string) :
  s1 +:+ s2 = EmptyString -> s1 = EmptyString /\ s2 = EmptyString.
Proof. destruct s1; simpl; [now intros -> | discriminate]. Qed.

Lemma sapp_eq_cons (s1 s2 s : string) (a : ascii) :
  s1 +:+ s2 = String a s ->
  (s1 = EmptyString /\ s2 = String a s) \/
  (exists s1', s1 = String a s1' /\ s = s1' +:+ s2).
Proof.
  destruct s1 as [|b s1]; simpl.
  - intros ->. now left.
  - intros E. injection E as -> <-. right. now exists s1.
Qed.

Lemma nullable_lang (r : regex) : nullable r = true <-> lang r EmptyString.
Proof.
  split.
  - induction r; simpl; intros H; try discriminate.
    + constructor.
    + apply andb_true_iff in H as [H1 H2].
      change EmptyString with (EmptyString +:+ EmptyString).
      constructor; auto.
    + apply orb_true_iff in H as [H|H]; [apply lang_alt_l | apply lang_alt_r]; auto.
    + constructor.
  - intros H. remember EmptyString as s eqn:E.
    induction H; simpl; try discriminate; try reflexivity.
    + apply sapp_eq_nil in E as [-> ->]. now rewrite IHlang1, IHlang2.
    + now rewrite IHlang.
    + rewrite IHlang; [apply orb_true_r | assumption].
Qed.

Lemma deriv_sound (a : ascii) (r : regex) :
  forall s, lang (deriv a r) s -> lang r (String a s).
Proof.
  induction r; simpl; intros s H.
  - inversion H.
  - inversion H.
  - destruct (dot_char a) eqn:D; inversion H; subst. now constructor.
  - destruct (Ascii.eqb_spec a c) as [-> |]; inversion H; subst. constructor.
  - destruct (nullable r1) eqn:N.
    + inversion H; subst.
      * match goal with
        | H' : lang (Seq _ _) _ |- _ => inversion H'; subst
        end.
        change (String a (?x +:+ ?y)) with (String a x +:+ y).
        constructor; auto.
      * change (String a s) with (EmptyString +:+ String a s).
        constructor; [now apply nullable_lang | auto].
    + inversion H; subst.
      change (String a (?x +:+ ?y)) with (String a x +:+ y).
      constructor; auto.
  - inversion H; subst; [apply lang_alt_l | apply lang_alt_r]; auto.
  - inversion H; subst.
    change (String a (?x +:+ ?y)) with (String a x +:+ y).
    constructor; auto.
Qed.

Lemma deriv_complete (a : ascii) (r : regex) (t : string) :
  lang r t -> forall s, t = String a s -> lang (deriv a r) s.
Proof.
  induction 1 as [ | c D | c | r1 r2 s1 s2 H1 IH1 H2 IH2 | r1 r2 t H IH
                 | r1 r2 t H IH | r | r s1 s2 H1 IH1 H2 IH2 ];
    intros s E; simpl.
  - discriminate.
  - injection E as -> <-. rewrite D. constructor.
  - injection E as -> <-. rewrite Ascii.eqb_refl. constructor.
  - apply sapp_eq_cons in E as [[-> ->] | (s1' & -> & ->)].
    + apply nullable_lang in H1. rewrite H1. apply lang_alt_r. now apply IH2.
    + destruct (nullable r1).
      * apply lang_alt_l. constructor; [now apply IH1 | assumption].
      * constructor; [now apply IH1 | assumption].
  - apply lang_alt_l. now apply IH.
  - apply lang_alt_r. now apply IH.
  - discriminate.
  - apply sapp_eq_cons in E as [[-> ->] | (s1' & -> & ->)].
    + now apply IH2.
    + constructor; [now apply IH1 | assumption].
Qed.

Lemma deriv_lang (a : ascii) (r : regex) (s : string) :
  lang (deriv a r) s <-> lang r (String a s).
Proof.
  split; [apply deriv_sound | intros H; now apply (deriv_complete a r _ H)].
Qed.

(** The matcher decides the language. *)
Lemma fullmatch_lang (s : string) :
  forall r, fullmatch r s = true <-> lang r s.
Proof.
  induction s as [|a s IH]; intros r; simpl.
  - apply nullable_lang.
  - rewrite IH. apply deriv_lang.
Qed.

Lemma match_prefix_lang (s : string) :
  forall r, match_prefix r s = true <->
            exists s1 s2, s = s1 +:+ s2 /\ lang r s1.
Proof.
  induction s as [|a s IH]; intros r; simpl; rewrite orb_true_iff.
  - split.
    + intros [H|H]; [| discriminate]. exists EmptyString, EmptyString.
      split; [reflexivity | now apply nullable_lang].
    + intros (s1 & s2 & E & H). symmetry in E.
      apply sapp_eq_nil in E as [-> ->]. left. now apply nullable_lang.
  - rewrite IH. split.
    + intros [H | (s1 & s2 & -> & H)].
      * exists EmptyString, (String a s). split; [reflexivity | now apply nullable_lang].
      * exists (String a s1), s2. split; [reflexivity | now apply deriv_lang].
    + intros (s1 & s2 & E & H). symmetry in E.
      apply sapp_eq_cons in E as [[-> ->] | (s1' & -> & ->)].
      * left. now apply nullable_lang.
      * right. exists s1', s2. split; [reflexivity | now apply deriv_lang].
Qed.

Lemma search_lang (r : regex) (s : string) :
  search r s = true <->
  exists s0 s1 s2, s = s0 +:+ s1 +:+ s2 /\ lang r s1.
Proof.
  induction s as [|a s IH]; cbn [search]; rewrite orb_true_iff, match_prefix_lang.
  - split.
    + intros [(s1 & s2 & E & H) | H]; [| discriminate].
      now exists EmptyString, s1, s2.
    + intros (s0 & s1 & s2 & E & H). left. symmetry in E.
      apply sapp_eq_nil in E as [-> E]. now exists s1, s2.
  - rewrite IH. split.
    + intros [(s1 & s2 & E & H) | (s0 & s1 & s2 & -> & H)].
      * now exists EmptyString, s1, s2.
      * now exists (String a s0), s1, s2.
    + intros (s0 & s1 & s2 & E & H). symmetry in E.
      apply sapp_eq_cons in E as [[-> E] | (s0' & -> & ->)].
      * left. now exists s1, s2.
      * right. now exists s0', s1, s2.
Qed.

End ReFacts.

(** ** The length threshold of the outgoing-call listener *)

Lemma no_line_feed_app (s1 s2 : string) :
  no_line_feed (s1 +:+ s2) = no_line_feed s1 && no_line_feed s2.
Proof.
  induction s1 as [|c s1 IH]; simpl; [reflexivity |].
  now rewrite IH, andb_assoc.
Qed.

Lemma lang_dot_inv (s : string) :
  Re.lang Re.Dot s -> exists c, s = String c EmptyString /\ Re.dot_char c = true.
Proof. inversion 1; subst. eauto. Qed.

Lemma lang_star_dot (s : string) :
  Re.lang (Re.Star Re.Dot) s <-> no_line_feed s = true.
Proof.
  split.
  - intros H. remember (Re.Star Re.Dot) as r eqn:E.
    induction H; try discriminate; [reflexivity |].
    injection E as ->.
    match goal with
    | H' : Re.lang Re.Dot _ |- _ => apply lang_dot_inv in H' as (c & -> & D)
    end.
    simpl. rewrite D. auto.
  - induction s as [|c s IH]; simpl; [constructor |].
    intros H. apply andb_true_iff in H as [D H].
    change (String c s) with (String c EmptyString +:+ s).
    constructor; [now constructor | auto].
Qed.

Lemma lang_at_least_dot (n : nat) :
  forall s, Re.lang (Re.at_least n Re.Dot) s <->
            n <= String.length s /\ no_line_feed s = true.
Proof.
  induction n as [|n IH]; intros s; simpl.
  - rewrite lang_star_dot. split; [intros H; split; [lia | exact H] | tauto].
  - split.
    + intros H. inversion H as [ | | | r1 r2 s1 s2 H1 H2 | | | | ]; subst.
      apply lang_dot_inv in H1 as (c & -> & D). apply IH in H2 as [L N].
      simpl. rewrite D, N. split; [lia | reflexivity].
    + destruct s as [|c s]; simpl; [lia |].
      intros [L N]. apply andb_true_iff in N as [D N].
      change (String c s) with (String c EmptyString +:+ s).
      constructor; [now constructor | apply IH; split; [lia | exact N]].
Qed.

Lemma five_or_more_threshold (how : Re.method) (ext : string) :
  no_line_feed ext = true ->
  (Re.test how five_or_more ext = true <-> 5 <= String.length ext).
Proof.
  intros N.
  assert (Hwhole : 5 <= String.length ext -> Re.lang (Re.at_least 5 Re.Dot) ext)
    by (intros L; apply lang_at_least_dot; now split).
  destruct how; unfold Re.test, five_or_more; cbn [Re.bol Re.body].
  - rewrite ReFacts.search_lang. split.
    + intros (s0 & s1 & s2 & -> & H). apply lang_at_least_dot in H as [L _].
      rewrite !sapp_length. lia.
    + intros L. exists EmptyString, ext, EmptyString.
      rewrite sapp_nil_r. split; [reflexivity | auto].
  - rewrite ReFacts.match_prefix_lang. split.
    + intros (s1 & s2 & -> & H). apply lang_at_least_dot in H as [L _].
      rewrite sapp_length. lia.
    + intros L. exists ext, EmptyString.
      rewrite sapp_nil_r. split; [reflexivity | auto].
  - rewrite ReFacts.fullmatch_lang, lang_at_least_dot. tauto.
Qed.

(** What [search] finds with [.{5,}]: a run of five characters or more
    without a line feed. *)
Lemma five_or_more_search (ext : string) :
  Re.test Re.Search five_or_more ext = true <->
  exists s0 s1 s2, ext = s0 +:+ s1 +:+ s2 /\
                   5 <= String.length s1 /\ no_line_feed s1 = true.
Proof.
  unfold Re.test, five_or_more; cbn [Re.bol Re.body].
  rewrite ReFacts.search_lang. split.
  - intros (s0 & s1 & s2 & E & H). apply lang_at_least_dot in H.
    now exists s0, s1, s2.
  - intros (s0 & s1 & s2 & E & H). exists s0, s1, s2.
    split; [exact E | now apply lang_at_least_dot].
Qed.

(** C6, as the specification states it, fails: a dialed string of five
    characters with a line feed among them is not taken by the outgoing-call
    listener, whichever way the pattern is applied. *)
Lemma five_characters_with_line_feed_not_taken :
  name (dialing five_with_line_feed) = "Newstate" /\
  keys (dialing five_with_line_feed) !! "ChannelStateDesc" = Some "Ring" /\
  keys (dialing five_with_line_feed) !! "Context" = Some "from-internal" /\
  keys (dialing five_with_line_feed) !! "Exten" = Some five_with_line_feed /\
  String.length five_with_line_feed = 5 /\
  map (fun how => matches how (dialing five_with_line_feed) outgoing_listener)
      [Re.Search; Re.Match; Re.Fullmatch] = [false; false; false].
Proof. repeat split; vm_compute; reflexivity. Qed.

(** C6, as amended: for a ringing [Newstate] event of the internal context
    whose [Exten] holds no line feed, the outgoing-call listener takes the
    event if and only if [Exten] has five characters or more, whatever the
    characters are otherwise and whichever way the pattern is applied. *)
Theorem outgoing_listener_length_threshold
    (how : Re.method) (event : Event) (ext : string) :
  name event = "Newstate" ->
  keys event !! "ChannelStateDesc" = Some "Ring" ->
  keys event !! "Context" = Some "from-internal" ->
  keys event !! "Exten" = Some ext ->
  no_line_feed ext = true ->
  (matches how event outgoing_listener = true <-> 5 <= String.length ext).
Proof.
  intros Hn Hs Hc He N. rewrite matches_outgoing.
  rewrite <- (five_or_more_threshold how ext N). split.
  - intros (_ & _ & _ & ext' & E & H). congruence.
  - intros H. repeat split; try assumption. now exists ext.
Qed.

Lemma outgoing_listener_length_threshold_witness :
  (matches Re.Search (dialing "12345") outgoing_listener = true <-> 5 <= 5) /\
  (matches Re.Search (dialing "1234") outgoing_listener = true <-> 5 <= 4) /\
  matches Re.Search (dialing "12345") outgoing_listener = true /\
  matches Re.Search (dialing "1234") outgoing_listener = false.
Proof.
  split; [| split].
  - apply (outgoing_listener_length_threshold Re.Search (dialing "12345") "12345");
      vm_compute; reflexivity.
  - apply (outgoing_listener_length_threshold Re.Search (dialing "1234") "1234");
      vm_compute; reflexivity.
  - split; vm_compute; reflexivity.
Defined.

(** ** Delivery *)

Section DeliveryFacts.

Variable network : nat -> string -> string -> http_outcome.

Lemma send_bg_run (s : string) (w : world) :
  send_bg network s w =
    (Ok tt, {| stdout := stdout w ++ [report (network (length (posts w)) call_url s)];
               submitted := submitted w;
               posts := posts w ++ [(call_url, s)] |}).
Proof.
  unfold send_bg, try_except, bind, requests_post, lift, print, report.
  destruct (network (length (posts w)) call_url s) as [code text | description];
    cbn; [| reflexivity].
  now rewrite sapp_nil_r.
Qed.

Lemma worker_run_queue (queue : list string) :
  forall out done,
    worker_run network (length queue)
               {| stdout := out; submitted := queue; posts := done |} =
    {| stdout := out ++ reports network (length done) queue;
       submitted := [];
       posts := done ++ map (pair call_url) queue |}.
Proof.
  induction queue as [|s queue IH]; intros out done; simpl.
  - now rewrite !app_nil_r.
  - unfold worker_step. cbn [submitted stdout posts]. rewrite send_bg_run.
    cbn [snd stdout submitted posts]. rewrite IH.
    rewrite length_app, Nat.add_1_r, <- !app_assoc. reflexivity.
Qed.

Lemma worker_drain_queue (w : world) :
  worker_drain network w =
    {| stdout := stdout w ++ reports network (length (posts w)) (submitted w);
       submitted := [];
       posts := posts w ++ map (pair call_url) (submitted w) |}.
Proof. unfold worker_drain. destruct w. apply worker_run_queue. Qed.

End DeliveryFacts.

(** C8: whatever the network does, [send_bg] returns without an exception,
    having made one POST of the payload to the fixed URL and printed one
    line, the status and text of the response or the description of the
    exception. The worker therefore makes one POST for every payload of its
    queue, in the order of the queue, whether earlier ones failed or not. *)
Theorem delivery_failure_is_absorbed
    (network : nat -> string -> string -> http_outcome) (w : world) :
  (forall s,
      send_bg network s w =
        (Ok tt, {| stdout := stdout w ++ [report (network (length (posts w)) call_url s)];
                   submitted := submitted w;
                   posts := posts w ++ [(call_url, s)] |})) /\
  posts (worker_drain network w) = posts w ++ map (pair call_url) (submitted w) /\
  stdout (worker_drain network w) =
    stdout w ++ reports network (length (posts w)) (submitted w) /\
  submitted (worker_drain network w) = [].
Proof.
  split; [intros s; apply send_bg_run |].
  rewrite worker_drain_queue. repeat split.
Qed.

Example flaky_network_run :
  worker_drain flaky {| stdout := []; submitted := ["a"; "b"; "c"]; posts := [] |} =
    {| stdout := ["200: OK"; "Unexpected error: connection refused";
                  "500: Internal Server Error"];
       submitted := [];
       posts := [(call_url, "a"); (call_url, "b"); (call_url, "c")] |}.
Proof. vm_compute. reflexivity. Qed.

(** Payloads sent one after the other are queued in that order, and the
    worker posts them in that order. *)
Lemma send_all_queued (payloads : list string) :
  forall w, send_all payloads w =
            (Ok tt, {| stdout := stdout w ++ payloads;
                       submitted := submitted w ++ payloads;
                       posts := posts w |}).
Proof.
  induction payloads as [|p payloads IH]; intros w; simpl.
  - unfold ret. rewrite !app_nil_r. now destruct w.
  - unfold bind. rewrite send_sent, IH. unfold sent; simpl.
    now rewrite <- !app_assoc.
Qed.

Lemma send_all_then_drain
    (network : nat -> string -> string -> http_outcome)
    (payloads : list string) (w : world) :
  submitted w = [] ->
  posts (worker_drain network (snd (send_all payloads w))) =
    posts w ++ map (pair call_url) payloads.
Proof.
  intros Hq. rewrite send_all_queued, worker_drain_queue. simpl.
  now rewrite Hq.
Qed.

(** ** Payloads of plain field values *)

Lemma sent_inj (p q : string) (w : world) : sent p w = sent q w -> p = q.
Proof.
  unfold sent. intros H. injection H as H _.
  apply app_inv_head in H. now injection H.
Qed.

Section PlainEvent.

Variables (event : Event) (w : world).

(** Every field value of the event is free of double quotes, backslashes
    and control characters. *)
Hypothesis plain_values :
  forall key value, keys event !! key = Some value -> Json.plain value = true.

Ltac field key :=
  let E := fresh "E" in
  destruct (keys event !! key) as [?|] eqn:E;
  [ pose proof (plain_values _ _ E)
  | exfalso;
    match goal with
    | H : _ = (Ok tt, _) |- _ =>
        unfold on_incomming_call, on_hangup, on_outgoing_call, on_transfer,
          on_accept in H;
        revert H; run_handler; discriminate
    end ].

Ltac decoded H L :=
  erewrite L in H by eassumption; apply (f_equal snd) in H; cbn [snd] in H;
  apply sent_inj in H;
  subst; eexists; split; [reflexivity |];
  apply JsonFacts.decode_object_text;
  repeat constructor; simpl; auto using first_word_plain.

Lemma on_incomming_call_json p :
  on_incomming_call event w = (Ok tt, sent p w) ->
  exists o, p = Json.object_text o /\ Json.decode p = Some o.
Proof.
  intros H. field "CallerIDNum". field "Uniqueid". field "Exten".
  decoded H on_incomming_call_sends.
Qed.

Lemma on_hangup_json p :
  on_hangup event w = (Ok tt, sent p w) ->
  exists o, p = Json.object_text o /\ Json.decode p = Some o.
Proof.
  intros H. field "Uniqueid". field "CallerIDNum".
  decoded H on_hangup_sends.
Qed.

Lemma on_outgoing_call_json p :
  on_outgoing_call event w = (Ok tt, sent p w) ->
  exists o, p = Json.object_text o /\ Json.decode p = Some o.
Proof.
  intros H. field "Uniqueid". field "Exten". field "CallerIDName".
  decoded H on_outgoing_call_sends.
Qed.

Lemma on_transfer_json p :
  on_transfer event w = (Ok tt, sent p w) ->
  exists o, p = Json.object_text o /\ Json.decode p = Some o.
Proof.
  intros H. field "TransfereeUniqueid". field "TransferTargetCallerIDName".
  decoded H on_transfer_sends.
Qed.

Lemma on_accept_json p :
  on_accept event w = (Ok tt, sent p w) ->
  exists o, p = Json.object_text o /\ Json.decode p = Some o.
Proof.
  intros H. field "ConnectedLineName".
  match goal with
  | E : keys event !! "ConnectedLineName" = Some ?line |- _ =>
      destruct (String.eqb_spec line "<unknown>") as [-> | Hne]
  end.
  - destruct (on_accept_one_shot event w) as [(key & _ & _ & R) | (Hall & _)];
      [rewrite R in H; discriminate |].
    rewrite List.Forall_forall in Hall.
    destruct (keys event !! "Uniqueid") as [uid|] eqn:E1;
      [| destruct (Hall "Uniqueid"); [simpl; tauto | exact E1]].
    destruct (keys event !! "CallerIDNum") as [num|] eqn:E2;
      [| destruct (Hall "CallerIDNum"); [simpl; tauto | exact E2]].
    destruct (keys event !! "Exten") as [ext|] eqn:E3;
      [| destruct (Hall "Exten"); [simpl; tauto | exact E3]].
    pose proof (plain_values _ _ E1). pose proof (plain_values _ _ E2).
    pose proof (plain_values _ _ E3).
    decoded H on_accept_unknown_sends.
  - destruct (on_accept_one_shot event w) as [(key & _ & _ & R) | (Hall & _)];
      [rewrite R in H; discriminate |].
    rewrite List.Forall_forall in Hall.
    destruct (keys event !! "Uniqueid") as [uid|] eqn:E1;
      [| destruct (Hall "Uniqueid"); [simpl; tauto | exact E1]].
    destruct (keys event !! "CallerIDNum") as [num|] eqn:E2;
      [| destruct (Hall "CallerIDNum"); [simpl; tauto | exact E2]].
    destruct (keys event !! "Exten") as [ext|] eqn:E3;
      [| destruct (Hall "Exten"); [simpl; tauto | exact E3]].
    pose proof (plain_values _ _ E1). pose proof (plain_values _ _ E2).
    pose proof (plain_values _ _ E3).
    decoded H on_accept_user_sends.
Qed.

End PlainEvent.

(** * Further properties of the handlers, the patterns and the delivery *)

(** ** Payloads of the other handlers *)

(** X1: for an event that carries [CallerIDNum], [Uniqueid] and [Exten],
    [on_incomming_call] prints and queues one text, the object with the
    members [event], [remote], [callid], [dialed] in this order and the
    field values as they are, whatever characters they hold; when the three
    values are plain, a JSON reader gets exactly these members back. *)
Theorem incoming_call_payload
    (event : Event) (w : world) (num uid ext : string) :
  keys event !! "CallerIDNum" = Some num ->
  keys event !! "Uniqueid" = Some uid ->
  keys event !! "Exten" = Some ext ->
  let fields := [("event", "Incoming Call"); ("remote", num); ("callid", uid);
                 ("dialed", ext)] in
  on_incomming_call event w = (Ok tt, sent (Json.object_text fields) w) /\
  (Json.plain num = true -> Json.plain uid = true -> Json.plain ext = true ->
   Json.decode (Json.object_text fields) = Some fields).
Proof.
  intros Hn Hu He fields. split.
  - now apply on_incomming_call_sends.
  - intros Pn Pu Pe. apply JsonFacts.decode_object_text.
    subst fields. repeat constructor; simpl; assumption.
Qed.

Lemma incoming_call_payload_witness :
  let fields := [("event", "Incoming Call"); ("remote", "+491701234567");
                 ("callid", "1700000000.12"); ("dialed", "100")] in
  on_incomming_call scenario1 quiet = (Ok tt, sent (Json.object_text fields) quiet) /\
  Json.decode (Json.object_text fields) = Some fields.
Proof.
  destruct (incoming_call_payload scenario1 quiet "+491701234567"
              "1700000000.12" "100") as [Hrun Hjson];
    try (vm_compute; reflexivity).
  split; [exact Hrun | apply Hjson; vm_compute; reflexivity].
Defined.

(** X2: for an event that carries [Uniqueid] and [CallerIDNum], [on_hangup]
    prints and queues one text, the object with the members [event],
    [callid], [remote] in this order and the field values as they are; when
    the two values are plain, a JSON reader gets exactly these members
    back. *)
Theorem hangup_payload (event : Event) (w : world) (uid num : string) :
  keys event !! "Uniqueid" = Some uid ->
  keys event !! "CallerIDNum" = Some num ->
  let fields := [("event", "Hangup"); ("callid", uid); ("remote", num)] in
  on_hangup event w = (Ok tt, sent (Json.object_text fields) w) /\
  (Json.plain uid = true -> Json.plain num = true ->
   Json.decode (Json.object_text fields) = Some fields).
Proof.
  intros Hu Hn fields. split.
  - now apply on_hangup_sends.
  - intros Pu Pn. apply JsonFacts.decode_object_text.
    subst fields. repeat constructor; simpl; assumption.
Qed.

Lemma hangup_payload_witness :
  let fields := [("event", "Hangup"); ("callid", "1700000000.12");
                 ("remote", "+491701234567")] in
  on_hangup scenario2 quiet = (Ok tt, sent (Json.object_text fields) quiet) /\
  Json.decode (Json.object_text fields) = Some fields.
Proof.
  destruct (hangup_payload scenario2 quiet "1700000000.12" "+491701234567")
    as [Hrun Hjson]; try (vm_compute; reflexivity).
  split; [exact Hrun | apply Hjson; vm_compute; reflexivity].
Defined.

(** X3: for an event that carries [Uniqueid], [Exten] and [CallerIDName],
    [on_outgoing_call] prints and queues one text, the object with the
    members [event], [callid], [remote] (the number dialed) and [user] (the
    text before the first space of [CallerIDName], in lower case); when the
    three values are plain, a JSON reader gets exactly these members back. *)
Theorem outgoing_call_payload
    (event : Event) (w : world) (uid ext cname : string) :
  keys event !! "Uniqueid" = Some uid ->
  keys event !! "Exten" = Some ext ->
  keys event !! "CallerIDName" = Some cname ->
  let fields := [("event", "Outgoing Call"); ("callid", uid); ("remote", ext);
                 ("user", PyStr.lower (before_space cname))] in
  on_outgoing_call event w = (Ok tt, sent (Json.object_text fields) w) /\
  (Json.plain uid = true -> Json.plain ext = true -> Json.plain cname = true ->
   Json.decode (Json.object_text fields) = Some fields).
Proof.
  intros Hu He Hc fields. split.
  - now apply on_outgoing_call_sends.
  - intros Pu Pe Pc. apply JsonFacts.decode_object_text.
    subst fields. repeat constructor; simpl; auto using first_word_plain.
Qed.

Lemma outgoing_call_payload_witness :
  let fields := [("event", "Outgoing Call"); ("callid", "1700000000.12");
                 ("remote", "0170123"); ("user", "jane")] in
  on_outgoing_call (dialing "0170123") quiet =
    (Ok tt, sent (Json.object_text fields) quiet) /\
  Json.decode (Json.object_text fields) = Some fields.
Proof.
  destruct (outgoing_call_payload (dialing "0170123") quiet "1700000000.12"
              "0170123" "Jane Doe") as [Hrun Hjson];
    try (vm_compute; reflexivity).
  split; [exact Hrun | apply Hjson; vm_compute; reflexivity].
Defined.

(** X4: for an event that carries [TransfereeUniqueid] and
    [TransferTargetCallerIDName], [on_transfer] prints and queues one text,
    the object with the members [event], [callid] (the transferee's id) and
    [newuser] (the text before the first space of the target's name, in
    lower case); when the two values are plain, a JSON reader gets exactly
    these members back. *)
Theorem transfer_payload (event : Event) (w : world) (uid tname : string) :
  keys event !! "TransfereeUniqueid" = Some uid ->
  keys event !! "TransferTargetCallerIDName" = Some tname ->
  let fields := [("event", "Transfer Call"); ("callid", uid);
                 ("newuser", PyStr.lower (before_space tname))] in
  on_transfer event w = (Ok tt, sent (Json.object_text fields) w) /\
  (Json.plain uid = true -> Json.plain tname = true ->
   Json.decode (Json.object_text fields) = Some fields).
Proof.
  intros Hu Ht fields. split.
  - now apply on_transfer_sends.
  - intros Pu Pt. apply JsonFacts.decode_object_text.
    subst fields. repeat constructor; simpl; auto using first_word_plain.
Qed.

Lemma transfer_payload_witness :
  let fields := [("event", "Transfer Call"); ("callid", "1700000000.12");
                 ("newuser", "bob")] in
  on_transfer transfer_to_bob quiet = (Ok tt, sent (Json.object_text fields) quiet) /\
  Json.decode (Json.object_text fields) = Some fields.
Proof.
  destruct (transfer_payload transfer_to_bob quiet "1700000000.12"
              "Bob Smith Extra") as [Hrun Hjson];
    try (vm_compute; reflexivity).
  split; [exact Hrun | apply Hjson; vm_compute; reflexivity].
Defined.

(** ** Which field a handler misses, and what it depends on *)

Ltac read event key :=
  cbn [first_missing];
  let E := fresh "E" in
  destruct (keys event !! key) as [?|] eqn:E;
  [ | unfold on_incomming_call, on_hangup, on_outgoing_call, on_transfer,
        on_accept;
      run_handler; reflexivity ].

Lemma first_missing_outcome
    (rule : EventListener) (fields : list string) (event : Event) (w : world) :
  In (rule, fields) required_fields ->
  match first_missing event fields with
  | Some key => on_event rule event w = (Raise (KeyError key), w)
  | None => exists p, on_event rule event w = (Ok tt, sent p w)
  end.
Proof.
  unfold required_fields.
  intros [E|[E|[E|[E|[E|[]]]]]]; injection E as <- <-;
    cbn [on_event incoming_listener outgoing_listener hangup_listener
           accept_listener transfer_listener].
  - read event "CallerIDNum". read event "Uniqueid". read event "Exten".
    cbn [first_missing]. eexists. eapply on_incomming_call_sends; eassumption.
  - read event "Uniqueid". read event "Exten". read event "CallerIDName".
    cbn [first_missing]. eexists. eapply on_outgoing_call_sends; eassumption.
  - read event "Uniqueid". read event "CallerIDNum".
    cbn [first_missing]. eexists. eapply on_hangup_sends; eassumption.
  - cbn [first_missing].
    destruct (keys event !! "ConnectedLineName") as [line|] eqn:E0;
      [| unfold on_accept; run_handler; reflexivity].
    destruct (String.eqb_spec line "<unknown>") as [-> | Hne].
    + read event "Uniqueid". read event "CallerIDNum". read event "Exten".
      cbn [first_missing]. eexists. eapply on_accept_unknown_sends; eassumption.
    + assert (Hb : String.eqb line "<unknown>" = false)
        by now apply String.eqb_neq.
      destruct (keys event !! "Uniqueid") as [uid|] eqn:E1;
        [| unfold on_accept; run_handler; rewrite Hb; run_handler; reflexivity].
      cbn [first_missing].
      destruct (keys event !! "CallerIDNum") as [num|] eqn:E2;
        [| unfold on_accept; run_handler; rewrite Hb; run_handler; reflexivity].
      cbn [first_missing].
      destruct (keys event !! "Exten") as [ext|] eqn:E3;
        [| unfold on_accept; run_handler; rewrite Hb; run_handler; reflexivity].
      eexists. eapply on_accept_user_sends; eassumption.
  - read event "TransfereeUniqueid". read event "TransferTargetCallerIDName".
    cbn [first_missing]. eexists. eapply on_transfer_sends; eassumption.
Qed.

Lemma first_missing_some (event : Event) (fields : list string) (key : string) :
  first_missing event fields = Some key ->
  In key fields /\ keys event !! key = None.
Proof.
  induction fields as [|k fields IH]; simpl; [discriminate |].
  destruct (keys event !! k) eqn:E.
  - intros H. destruct (IH H) as [Hin Hnone]. split; [now right | exact Hnone].
  - intros H. injection H as <-. split; [now left | exact E].
Qed.

Lemma first_missing_none (event : Event) (fields : list string) :
  first_missing event fields = None ->
  forall key, In key fields -> keys event !! key <> None.
Proof.
  induction fields as [|k fields IH]; simpl; [intros _ key [] |].
  destruct (keys event !! k) eqn:E; [| discriminate].
  intros H key [<- | Hin]; [congruence | now apply IH].
Qed.

(** C1, as amended: whenever an event lacks a field that the handler of a
    listener reads, the handler raises [KeyError] to its caller, the session
    library, and the key is the first field, in the order in which the
    handler reads them, that the event lacks; it has then printed nothing
    and queued nothing, so no payload is sent and no error is logged by the
    handler. *)
Theorem missing_field_raises_key_error
    (rule : EventListener) (fields : list string) (event : Event) (w : world) :
  In (rule, fields) required_fields ->
  (exists key, In key fields /\ keys event !! key = None) ->
  exists key, first_missing event fields = Some key /\
              In key fields /\ keys event !! key = None /\
              on_event rule event w = (Raise (KeyError key), w).
Proof.
  intros Hin (missing & Hmissing & Hnone).
  pose proof (first_missing_outcome rule fields event w Hin) as Hrun.
  destruct (first_missing event fields) as [key|] eqn:Hfirst.
  - exists key. destruct (first_missing_some event fields key Hfirst) as [Hk Hn].
    repeat split; assumption.
  - now destruct (first_missing_none event fields Hfirst missing Hmissing).
Qed.

Lemma missing_field_raises_key_error_witness :
  exists key, first_missing bare_hangup ["Uniqueid"; "CallerIDNum"] = Some key /\
              In key ["Uniqueid"; "CallerIDNum"] /\
              keys bare_hangup !! key = None /\
              on_event hangup_listener bare_hangup quiet =
                (Raise (KeyError key), quiet).
Proof.
  apply (missing_field_raises_key_error hangup_listener
           ["Uniqueid"; "CallerIDNum"] bare_hangup quiet).
  - simpl. right. right. left. reflexivity.
  - exists "CallerIDNum". split; [simpl; tauto | vm_compute; reflexivity].
Defined.

(** X5: a handler reads its fields in a fixed order. When the event carries
    them all it sends one payload; otherwise it raises [KeyError] for the
    first field, in that order, which the event lacks, with nothing printed,
    queued or posted. It raises nothing else: no [IndexError] from taking
    the first word of a name, no [TypeError] from the formatting. *)
Theorem handler_stops_at_first_missing_field
    (rule : EventListener) (fields : list string) (event : Event) (w : world) :
  In (rule, fields) required_fields ->
  match first_missing event fields with
  | Some key => on_event rule event w = (Raise (KeyError key), w)
  | None => exists p, on_event rule event w = (Ok tt, sent p w)
  end.
Proof. apply first_missing_outcome. Qed.

Lemma handler_stops_at_first_missing_field_witness :
  on_event hangup_listener bare_hangup quiet = (Raise (KeyError "Uniqueid"), quiet).
Proof.
  apply (handler_stops_at_first_missing_field hangup_listener
           ["Uniqueid"; "CallerIDNum"] bare_hangup quiet).
  simpl. right. right. left. reflexivity.
Defined.

(** X6: the outcome of a handler depends on the event through the fields
    that the handler reads and through nothing else: two events that agree
    on these fields, whatever their names and their other fields, give the
    same result, the same output and the same queue. *)
Theorem handler_reads_only_its_fields
    (rule : EventListener) (fields : list string) (e1 e2 : Event) (w : world) :
  In (rule, fields) required_fields ->
  (forall key, In key fields -> keys e1 !! key = keys e2 !! key) ->
  on_event rule e1 w = on_event rule e2 w.
Proof.
  unfold required_fields.
  intros [E|[E|[E|[E|[E|[]]]]]] Hsame; injection E as <- <-;
    cbn [on_event incoming_listener outgoing_listener hangup_listener
           accept_listener transfer_listener];
    unfold on_incomming_call, on_hangup, on_outgoing_call, on_transfer,
      on_accept, getitem;
    repeat match goal with
           | |- context [keys e1 !! ?key] =>
               rewrite (Hsame key ltac:(simpl; tauto))
           end;
    reflexivity.
Qed.

Lemma handler_reads_only_its_fields_witness :
  on_event incoming_listener scenario1 quiet =
  on_event incoming_listener scenario1_more quiet.
Proof.
  apply (handler_reads_only_its_fields incoming_listener
           ["CallerIDNum"; "Uniqueid"; "Exten"] scenario1 scenario1_more quiet).
  - simpl. left. reflexivity.
  - intros key [<-|[<-|[<-|[]]]]; vm_compute; reflexivity.
Defined.

(** ** The first word *)

Lemma lower_char_space (c : ascii) :
  Ascii.eqb (PyStr.lower_char c) " " = Ascii.eqb c " ".
Proof. destruct c as [[] [] [] [] [] [] [] []]; vm_compute; reflexivity. Qed.

Lemma lower_char_not_upper (c : ascii) : PyStr.isupper (PyStr.lower_char c) = false.
Proof. destruct c as [[] [] [] [] [] [] [] []]; vm_compute; reflexivity. Qed.

Lemma lower_has_space (s : string) : has_space (PyStr.lower s) = has_space s.
Proof.
  induction s as [|c s IH]; simpl; [reflexivity |].
  now rewrite lower_char_space, IH.
Qed.

Lemma lower_has_upper (s : string) : has_upper (PyStr.lower s) = false.
Proof.
  induction s as [|c s IH]; simpl; [reflexivity |].
  now rewrite lower_char_not_upper, IH.
Qed.

Lemma before_space_has_space (s : string) : has_space (before_space s) = false.
Proof.
  induction s as [|c s IH]; simpl; [reflexivity |].
  destruct (Ascii.eqb c " ") eqn:E; simpl; [reflexivity |].
  now rewrite E, IH.
Qed.

Lemma before_space_length (s : string) :
  String.length (before_space s) <= String.length s.
Proof.
  induction s as [|c s IH]; simpl; [lia |].
  destruct (Ascii.eqb c " "); simpl; lia.
Qed.

Lemma lower_length (s : string) : String.length (PyStr.lower s) = String.length s.
Proof. induction s as [|c s IH]; simpl; [reflexivity | now rewrite IH]. Qed.

Lemma lower_char_idempotent (c : ascii) :
  PyStr.lower_char (PyStr.lower_char c) = PyStr.lower_char c.
Proof. destruct c as [[] [] [] [] [] [] [] []]; vm_compute; reflexivity. Qed.

Lemma lower_idempotent (s : string) : PyStr.lower (PyStr.lower s) = PyStr.lower s.
Proof.
  induction s as [|c s IH]; simpl; [reflexivity |].
  now rewrite lower_char_idempotent, IH.
Qed.

Lemma lower_before_space (s : string) :
  PyStr.lower (before_space s) = before_space (PyStr.lower s).
Proof.
  induction s as [|c s IH]; simpl; [reflexivity |].
  rewrite lower_char_space. destruct (Ascii.eqb c " "); simpl; [reflexivity |].
  now rewrite IH.
Qed.

(** X7: taking the first word of a name, [x.split(' ', 1)[0].lower()],
    never raises, also for the empty name, and its value holds no space and
    no character that [lower] would change, and is the same whether the
    name is put in lower case after the split or before it. *)
Theorem first_word_shape (x : string) (w : world) :
  exists user,
    first_word_lower x w = (Ok user, w) /\
    has_space user = false /\
    has_upper user = false /\
    PyStr.lower user = user /\
    user = before_space (PyStr.lower x).
Proof.
  exists (PyStr.lower (before_space x)). split; [apply first_word_lower_value |].
  rewrite lower_has_space, before_space_has_space, lower_has_upper.
  repeat split; [apply lower_idempotent | apply lower_before_space].
Qed.

(** ** The two patterns *)

Lemma lang_text (t s : string) : Re.lang (Re.text t) s <-> s = t.
Proof.
  revert s. induction t as [|c t IH]; intros s; simpl.
  - split; [inversion 1; reflexivity | intros ->; constructor].
  - split.
    + intros H. inversion H as [ | | | r1 r2 s1 s2 H1 H2 | | | | ]; subst.
      inversion H1; subst. apply IH in H2 as ->. reflexivity.
    + intros ->. change (String c t) with (String c EmptyString +:+ t).
      constructor; [constructor | now apply IH].
Qed.

Lemma lang_text_then_dots (t s : string) :
  Re.lang (Re.Seq (Re.text t) (Re.Star Re.Dot)) s <->
  exists rest, s = t +:+ rest /\ no_line_feed rest = true.
Proof.
  split.
  - intros H. inversion H as [ | | | r1 r2 s1 s2 H1 H2 | | | | ]; subst.
    apply lang_text in H1 as ->. apply lang_star_dot in H2. now exists s2.
  - intros (rest & -> & N). constructor; [now apply lang_text | now apply lang_star_dot].
Qed.

Lemma lang_sipgate (s : string) :
  Re.lang (Re.body sipgate_channel) s <->
  exists rest, s = sipgate_prefix +:+ rest /\ no_line_feed rest = true.
Proof. apply (lang_text_then_dots sipgate_prefix). Qed.

(** X8: the channel pattern of the incoming-call listener,
    [^SIP/Sipgate_-2615510.*], holds of a channel name exactly when the name
    starts with [SIP/Sipgate_-2615510]; applied to the whole name
    ([fullmatch]) it asks in addition that no line feed follows the
    prefix. *)
Theorem sipgate_channel_is_a_prefix_test (how : Re.method) (channel : string) :
  Re.test how sipgate_channel channel = true <->
  exists rest, channel = sipgate_prefix +:+ rest /\
               (how = Re.Fullmatch -> no_line_feed rest = true).
Proof.
  assert (Hpre : Re.match_prefix (Re.body sipgate_channel) channel = true <->
                 exists rest, channel = sipgate_prefix +:+ rest).
  { rewrite ReFacts.match_prefix_lang. split.
    - intros (s1 & s2 & -> & H). apply lang_sipgate in H as (rest & -> & _).
      exists (rest +:+ s2). now rewrite sapp_assoc.
    - intros (rest & ->). exists sipgate_prefix, rest. split; [reflexivity |].
      apply lang_sipgate. exists EmptyString. now rewrite sapp_nil_r. }
  destruct how; unfold Re.test; cbn [Re.bol sipgate_channel].
  - change (Re.body _) with (Re.body sipgate_channel). rewrite Hpre. split.
    + intros (rest & ->). exists rest. split; [reflexivity | discriminate].
    + intros (rest & -> & _). now exists rest.
  - change (Re.body _) with (Re.body sipgate_channel). rewrite Hpre. split.
    + intros (rest & ->). exists rest. split; [reflexivity | discriminate].
    + intros (rest & -> & _). now exists rest.
  - change (Re.body _) with (Re.body sipgate_channel).
    rewrite ReFacts.fullmatch_lang, lang_sipgate. split.
    + intros (rest & -> & N). now exists rest.
    + intros (rest & -> & N). exists rest. split; [reflexivity | now apply N].
Qed.

(** X9: the pattern of the outgoing-call listener, [.{5,}], holds of a
    string, by [search], when the string has five characters in a row or
    more without a line feed; by [match], when it starts with five such
    characters; by [fullmatch], when it has five characters or more and no
    line feed at all. *)
Theorem five_or_more_by_method (ext : string) :
  (Re.test Re.Search five_or_more ext = true <->
   exists s0 s1 s2, ext = s0 +:+ s1 +:+ s2 /\
                    5 <= String.length s1 /\ no_line_feed s1 = true) /\
  (Re.test Re.Match five_or_more ext = true <->
   exists s1 s2, ext = s1 +:+ s2 /\
                 5 <= String.length s1 /\ no_line_feed s1 = true) /\
  (Re.test Re.Fullmatch five_or_more ext = true <->
   5 <= String.length ext /\ no_line_feed ext = true).
Proof.
  split; [apply five_or_more_search |]. split.
  - unfold Re.test, five_or_more; cbn [Re.bol Re.body].
    rewrite ReFacts.match_prefix_lang. split.
    + intros (s1 & s2 & E & H). apply lang_at_least_dot in H. now exists s1, s2.
    + intros (s1 & s2 & E & H). exists s1, s2.
      split; [exact E | now apply lang_at_least_dot].
  - unfold Re.test, five_or_more; cbn [Re.bol Re.body].
    rewrite ReFacts.fullmatch_lang. apply lang_at_least_dot.
Qed.

Lemma sipgate_channel_is_a_prefix_test_witness :
  Re.test Re.Search sipgate_channel "SIP/Sipgate_-2615510-00a1" = true.
Proof.
  apply (proj2 (sipgate_channel_is_a_prefix_test Re.Search
                  "SIP/Sipgate_-2615510-00a1")).
  exists "-00a1". split; [reflexivity | discriminate].
Defined.

(** ** The line that a delivery logs *)

Lemma rstrip_nil_iff (s : string) :
  PyStr.rstrip s = EmptyString <-> all_space s = true.
Proof.
  induction s as [|c s IH]; simpl; [tauto |].
  destruct (PyStr.rstrip s) as [|d r] eqn:E.
  - destruct (PyStr.isspace c); simpl.
    + rewrite <- IH. tauto.
    + split; discriminate.
  - split; [discriminate |]. intros H. apply andb_true_iff in H as [_ H].
    apply IH in H. discriminate.
Qed.

Lemma rstrip_split (s : string) :
  exists tail, s = PyStr.rstrip s +:+ tail /\ all_space tail = true.
Proof.
  induction s as [|c s (tail & E & A)]; simpl.
  - now exists EmptyString.
  - destruct (PyStr.rstrip s) as [|d r] eqn:R.
    + destruct (PyStr.isspace c) eqn:C.
      * exists (String c s). split; [reflexivity |]. simpl. rewrite C.
        now apply rstrip_nil_iff.
      * exists tail. simpl. split; [now rewrite E at 1 | exact A].
    + exists tail. split; [| exact A]. simpl. now rewrite E at 1.
Qed.

Lemma rstrip_ends (s : string) : ends_in_space (PyStr.rstrip s) = false.
Proof.
  induction s as [|c s IH]; simpl; [reflexivity |].
  destruct (PyStr.rstrip s) as [|d r] eqn:R.
  - destruct (PyStr.isspace c) eqn:C; simpl; [reflexivity | exact C].
  - exact IH.
Qed.

(** X10: when the POST is answered, [send_bg] logs one line: the status
    code in decimal, a colon, a blank, and the text of the response without
    its trailing white space. The text is the part logged followed by white
    space only, and the part logged does not end in white space; a text of
    white space only is logged as the empty text. *)
Theorem answered_post_is_logged_stripped
    (network : nat -> string -> string -> http_outcome)
    (s : string) (w : world) (status_code : Z) (text : string) :
  network (length (posts w)) call_url s = Response status_code text ->
  exists body tail,
    stdout (snd (send_bg network s w)) =
      stdout w ++ [PyStr.str_of_int status_code +:+ ": " +:+ body] /\
    text = body +:+ tail /\
    all_space tail = true /\
    ends_in_space body = false /\
    (all_space text = true -> body = EmptyString).
Proof.
  intros Hnet. destruct (rstrip_split text) as (tail & E & A).
  exists (PyStr.rstrip text), tail.
  rewrite send_bg_run, Hnet. cbn [snd stdout report].
  repeat split; try assumption.
  - apply rstrip_ends.
  - apply rstrip_nil_iff.
Qed.

Lemma answered_post_is_logged_stripped_witness :
  exists body tail,
    stdout (snd (send_bg flaky "a" quiet)) = [] ++ ["200" +:+ ": " +:+ body] /\
    "OK" +:+ String Re.newline EmptyString = body +:+ tail /\
    all_space tail = true /\
    ends_in_space body = false /\
    (all_space ("OK" +:+ String Re.newline EmptyString) = true -> body = EmptyString).
Proof.
  apply (answered_post_is_logged_stripped flaky "a" quiet 200
           ("OK" +:+ String Re.newline EmptyString)).
  reflexivity.
Defined.

(** ** From a handler to the POST *)

(** X11: payloads handed to [send] one after the other are printed in that
    order and, once the worker has run, posted in that order to the fixed
    URL, after whatever was queued before them, one POST each, whatever the
    network answers; [send] itself posts nothing. *)
Theorem sends_are_posted_in_order
    (network : nat -> string -> string -> http_outcome)
    (payloads : list string) (w : world) :
  let w' := snd (send_all payloads w) in
  fst (send_all payloads w) = Ok tt /\
  stdout w' = stdout w ++ payloads /\
  posts w' = posts w /\
  posts (worker_drain network w') =
    posts w ++ map (pair call_url) (submitted w ++ payloads) /\
  submitted (worker_drain network w') = [].
Proof.
  cbv zeta. rewrite send_all_queued, worker_drain_queue. cbn.
  repeat split.
Qed.

(** X12: a handler and the worker together. When the event carries every
    field that the handler reads, the worker afterwards makes one POST more
    than it would have made, the last one, and its body is the payload that
    the handler printed; when a field is missing, the worker makes the POSTs
    of the payloads queued before and no other. *)
Theorem handler_then_worker
    (network : nat -> string -> string -> http_outcome)
    (rule : EventListener) (fields : list string) (event : Event) (w : world) :
  In (rule, fields) required_fields ->
  let before := posts w ++ map (pair call_url) (submitted w) in
  let after := posts (worker_drain network (snd (on_event rule event w))) in
  match first_missing event fields with
  | Some _ => after = before
  | None => exists p, stdout (snd (on_event rule event w)) = stdout w ++ [p] /\
                      after = before ++ [(call_url, p)]
  end.
Proof.
  intros Hin before after. subst before after.
  pose proof (first_missing_outcome rule fields event w Hin) as H.
  destruct (first_missing event fields) as [key|].
  - rewrite H, worker_drain_queue. reflexivity.
  - destruct H as [p H]. exists p. rewrite H, worker_drain_queue. cbn.
    split; [reflexivity |]. now rewrite map_app, app_assoc.
Qed.

Lemma handler_then_worker_witness :
  exists p,
    stdout (snd (on_event hangup_listener scenario2 quiet)) = [] ++ [p] /\
    posts (worker_drain flaky (snd (on_event hangup_listener scenario2 quiet))) =
      ([] ++ map (pair call_url) []) ++ [(call_url, p)].
Proof.
  apply (handler_then_worker flaky hangup_listener ["Uniqueid"; "CallerIDNum"]
           scenario2 quiet).
  simpl. right. right. left. reflexivity.
Defined.

(** ** Events that no listener takes, and events taken without their fields *)

Lemma dispatch_nobody (how : Re.method) (event : Event) (w : world) :
  verdicts how event = [false; false; false; false; false] ->
  dispatch how event w = (Ok tt, w).
Proof.
  intros Hv.
  destruct (dispatch_cases how event w)
    as [[_ D]|[[E _]|[[E _]|[[E _]|[[E _]|[E _]]]]]];
    [exact D | | | | |]; rewrite Hv in E; discriminate E.
Qed.

(** X13: an event is dropped, with nothing printed, queued or raised, when
    its kind is none of [Newstate], [Hangup] and [AttendedTransfer]; when it
    is a [Newstate] whose [ChannelStateDesc] is missing or is neither [Ring]
    nor [Up]; and when it is not an [AttendedTransfer] and its [Context] is
    missing or is neither [from-trunk] nor [from-internal]. *)
Theorem other_events_are_dropped (how : Re.method) (event : Event) (w : world) :
  (name event <> "Newstate" /\ name event <> "Hangup" /\
   name event <> "AttendedTransfer") \/
  (name event = "Newstate" /\
   keys event !! "ChannelStateDesc" <> Some "Ring" /\
   keys event !! "ChannelStateDesc" <> Some "Up") \/
  (name event <> "AttendedTransfer" /\
   keys event !! "Context" <> Some "from-trunk" /\
   keys event !! "Context" <> Some "from-internal") ->
  verdicts how event = [false; false; false; false; false] /\
  dispatch how event w = (Ok tt, w).
Proof.
  intros H.
  assert (Hv : verdicts how event = [false; false; false; false; false]).
  { unfold verdicts, event_listeners, map.
    destruct (matches how event incoming_listener) eqn:E1;
      [apply matches_incoming in E1 as (? & ? & ? & _); exfalso;
       destruct H as [(? & ? & ?)|[(? & ? & ?)|(? & ? & ?)]]; congruence |].
    destruct (matches how event outgoing_listener) eqn:E2;
      [apply matches_outgoing in E2 as (? & ? & ? & _); exfalso;
       destruct H as [(? & ? & ?)|[(? & ? & ?)|(? & ? & ?)]]; congruence |].
    destruct (matches how event hangup_listener) eqn:E3;
      [apply matches_hangup in E3 as (? & ?); exfalso;
       destruct H as [(? & ? & ?)|[(? & ? & ?)|(? & ? & ?)]]; congruence |].
    destruct (matches how event accept_listener) eqn:E4;
      [apply matches_accept in E4 as (? & ? & ?); exfalso;
       destruct H as [(? & ? & ?)|[(? & ? & ?)|(? & ? & ?)]]; congruence |].
    destruct (matches how event transfer_listener) eqn:E5;
      [apply matches_transfer in E5; exfalso;
       destruct H as [(? & ? & ?)|[(? & ? & ?)|(? & ? & ?)]]; congruence |].
    reflexivity. }
  split; [exact Hv | now apply dispatch_nobody].
Qed.

Lemma other_events_are_dropped_witness :
  verdicts Re.Search var_set = [false; false; false; false; false] /\
  dispatch Re.Search var_set quiet = (Ok tt, quiet).
Proof.
  apply (other_events_are_dropped Re.Search var_set quiet).
  left. repeat split; discriminate.
Defined.

(** X14: the transfer listener puts no condition on the fields. Every
    [AttendedTransfer] event goes to [on_transfer] and to no other handler,
    so one that lacks [TransfereeUniqueid] or [TransferTargetCallerIDName]
    is not dropped: the handler raises [KeyError] for the first of the two
    that is missing. *)
Theorem every_transfer_reaches_its_handler
    (how : Re.method) (event : Event) (w : world) :
  name event = "AttendedTransfer" ->
  verdicts how event = [false; false; false; false; true] /\
  dispatch how event w = on_transfer event w /\
  match first_missing event ["TransfereeUniqueid"; "TransferTargetCallerIDName"] with
  | Some key => dispatch how event w = (Raise (KeyError key), w)
  | None => exists p, dispatch how event w = (Ok tt, sent p w)
  end.
Proof.
  intros Hn.
  assert (Hm : matches how event transfer_listener = true)
    by now apply matches_transfer.
  assert (Hd : dispatch how event w = on_transfer event w)
    by now apply dispatch_transfer.
  split; [| split; [exact Hd |]].
  - pose proof (verdicts_cases how event) as H; cbv zeta in H.
    destruct H as [H|[H|[H|[H|[H|H]]]]]; try exact H;
      unfold verdicts, event_listeners, map in H;
      injection H as _ _ _ _ H; congruence.
  - rewrite Hd.
    apply (first_missing_outcome transfer_listener
             ["TransfereeUniqueid"; "TransferTargetCallerIDName"] event w).
    simpl. tauto.
Qed.

Lemma every_transfer_reaches_its_handler_witness :
  verdicts Re.Search transfer_to_bob = [false; false; false; false; true] /\
  dispatch Re.Search transfer_to_bob quiet = on_transfer transfer_to_bob quiet /\
  exists p, dispatch Re.Search transfer_to_bob quiet = (Ok tt, sent p quiet).
Proof.
  apply (every_transfer_reaches_its_handler Re.Search transfer_to_bob quiet).
  reflexivity.
Defined.

(** X15: the outgoing-call listener tests [Exten] against its pattern, so an
    event that it takes carries [Exten]: [on_outgoing_call], called for such
    an event, never raises [KeyError] for [Exten]; it sends a payload whose
    [remote] member is that [Exten], or raises [KeyError] for [Uniqueid] or
    for [CallerIDName]. *)
Theorem outgoing_call_never_misses_exten
    (how : Re.method) (event : Event) (w : world) :
  matches how event outgoing_listener = true ->
  exists ext,
    keys event !! "Exten" = Some ext /\
    (on_outgoing_call event w = (Raise (KeyError "Uniqueid"), w) \/
     on_outgoing_call event w = (Raise (KeyError "CallerIDName"), w) \/
     exists uid cname,
       on_outgoing_call event w =
         (Ok tt, sent (Json.object_text
                         [("event", "Outgoing Call"); ("callid", uid);
                          ("remote", ext);
                          ("user", PyStr.lower (before_space cname))]) w)).
Proof.
  intros Hm. apply matches_outgoing in Hm as (_ & _ & _ & ext & He & _).
  exists ext. split; [exact He |].
  destruct (keys event !! "Uniqueid") as [uid|] eqn:Hu;
    [| left; unfold on_outgoing_call; run_handler; reflexivity].
  destruct (keys event !! "CallerIDName") as [cname|] eqn:Hc;
    [| right; left; unfold on_outgoing_call; run_handler; reflexivity].
  right. right. exists uid, cname. now apply on_outgoing_call_sends.
Qed.

Lemma outgoing_call_never_misses_exten_witness :
  exists ext,
    keys (dialing "0170123") !! "Exten" = Some ext /\
    (on_outgoing_call (dialing "0170123") quiet = (Raise (KeyError "Uniqueid"), quiet) \/
     on_outgoing_call (dialing "0170123") quiet =
       (Raise (KeyError "CallerIDName"), quiet) \/
     exists uid cname,
       on_outgoing_call (dialing "0170123") quiet =
         (Ok tt, sent (Json.object_text
                         [("event", "Outgoing Call"); ("callid", uid);
                          ("remote", ext);
                          ("user", PyStr.lower (before_space cname))]) quiet)).
Proof.
  apply (outgoing_call_never_misses_exten Re.Search (dialing "0170123") quiet).
  vm_compute. reflexivity.
Defined.
